(** * Cash-flow projection engine (calculations.py)

    A shallow embedding of the projection engine of the cash-flow lab:
    the working-capital calculator, the debt-service calculator, the
    tier-1 metrics, the scenario adjuster and the month-by-month
    recurrence of [generate_monthly_projections].

    Numbers.  The Python code computes on numbers (ints and binary
    floats).  Here every number is an exact rational [Q]: the arithmetic
    of the model is the arithmetic the formulas denote, without rounding,
    overflow or NaN.  Month indexes, month counts and the loan term are
    Python ints and are modelled as [Z].  The theorems over [Q] state
    equalities only between terms that the code computes by the same
    operations in the same order, and inequalities that rounding keeps;
    where a statement is about the very digits the program prints, it is
    made on the module [B64], the same engine on binary64 floats.

    Dictionaries.  The parameter record [inputs] is a Python dict with
    string keys; it is a [gmap string Q].  [d[k]] on a missing key raises
    [KeyError]; [d.get(k, v)] does not.  The debt dictionary is built in
    one place (app.py) with exactly the four keys [loan_amount],
    [interest_rate], [term_months], [monthly_payment], the third an int:
    it is the record [DebtParams], and [None] is [option]'s [None]. *)

From Stdlib Require Import QArith Qpower ZArith Lia Lqa.
From Stdlib Require PrimFloat Uint63.
From stdpp Require Import gmap strings list.

Local Open Scope Q_scope.

(** ** Exceptions and the error monad *)

Inductive exn : Type :=
| KeyError (k : string)
| ZeroDivisionError.

Inductive result (A : Type) : Type :=
| Ok (a : A)
| Raise (e : exn).

Arguments Ok {A} a.
Arguments Raise {A} e.

Definition rbind {A B : Type} (c : result A) (k : A -> result B) : result B :=
  match c with
  | Ok a => k a
  | Raise e => Raise e
  end.

Notation "x <~ c ;; k" := (rbind c (fun x => k))
  (at level 100, c at next level, right associativity).

(** ** Python primitives on numbers and dicts *)

(** [a < b] as a test. *)
Definition Qltb (a b : Q) : bool := negb (Qle_bool b a).

(** [max(a, b)]: the first argument unless the second is greater. *)
Definition py_max (a b : Q) : Q := if Qltb a b then b else a.

(** [min(a, b)]: the first argument unless the second is smaller. *)
Definition py_min (a b : Q) : Q := if Qltb b a then b else a.

(** [b ** e] for an int exponent: zero to a negative power raises. *)
Definition py_pow (b : Q) (e : Z) : result Q :=
  if Qeq_bool b 0 && (e <? 0)%Z then Raise ZeroDivisionError else Ok (b ^ e).

(** [d[k]] *)
Definition getitem (d : gmap string Q) (k : string) : result Q :=
  match d !! k with
  | Some v => Ok v
  | None => Raise (KeyError k)
  end.

(** [d.get(k, dflt)] *)
Definition get (d : gmap string Q) (k : string) (dflt : Q) : Q :=
  default dflt (d !! k).

(** ** Working capital *)

Module WC.
Record t : Type := mk { ar : Q; inventory : Q; ap : Q }.
End WC.

Definition calculate_wc_components
    (revenue cogs_pct ar_days ap_days inventory_days : Q) : WC.t :=
  let cogs := revenue * cogs_pct in
  let ar := (revenue / 30) * ar_days in
  let inventory := (cogs / 30) * inventory_days in
  let ap := (cogs / 30) * ap_days in
  WC.mk ar inventory ap.

Definition calculate_ebit (revenue cogs_pct opex : Q) : Q :=
  let cogs := revenue * cogs_pct in
  let ebit := revenue - cogs - opex in
  ebit.

Definition calculate_working_capital (ar inventory ap : Q) : Q :=
  (ar + inventory) - ap.

Definition calculate_delta_wc (wc_current : Q) (wc_previous : option Q) : Q :=
  match wc_previous with
  | None => wc_current
  | Some p => wc_current - p
  end.

Definition calculate_fcf (ebit tax_rate depreciation capex delta_wc : Q) : Q :=
  let nopat := ebit * (1 - tax_rate) in
  let fcf := nopat + depreciation - capex - delta_wc in
  fcf.

(** ** Debt service *)

Record DebtParams : Type := mkDebt {
  loan_amount : Q;
  interest_rate : Q;
  term_months : Z;
  monthly_payment : Q
}.

Module DS.
Record t : Type := mk {
  interest_expense : Q;
  principal_payment : Q;
  remaining_balance : Q
}.
Definition zero : t := mk 0 0 0.
End DS.

Definition calculate_debt_service (debt_params : option DebtParams) (month : Z)
    : result DS.t :=
  match debt_params with
  | None => Ok DS.zero
  | Some d =>
    if (term_months d <? month)%Z then Ok DS.zero else
    let monthly_rate := interest_rate d / 12 in
    let months_remaining := (term_months d - month + 1)%Z in
    if (months_remaining <=? 0)%Z then Ok DS.zero else
    if Qeq_bool monthly_rate 0 then
      let remaining_balance :=
        loan_amount d - (monthly_payment d * inject_Z (month - 1)) in
      let interest_expense := 0 in
      let principal_payment := monthly_payment d in
      Ok (DS.mk interest_expense principal_payment (py_max 0 remaining_balance))
    else
      p <~ py_pow (1 + monthly_rate) (- months_remaining) ;;
      let remaining_balance := monthly_payment d * ((1 - p) / monthly_rate) in
      prev_balance <~
        (if (1 <? month)%Z then
           p' <~ py_pow (1 + monthly_rate) (- (months_remaining + 1)) ;;
           Ok (monthly_payment d * ((1 - p') / monthly_rate))
         else Ok (loan_amount d)) ;;
      let interest_expense := prev_balance * monthly_rate in
      let principal_payment := monthly_payment d - interest_expense in
      Ok (DS.mk interest_expense principal_payment remaining_balance)
  end.

(** The loan set-up of app.py: the payment stored in the debt dict.  The
    form offers terms of 12 to 360 months, so the division is defined. *)
Definition setup_monthly_payment (term_amount term_rate : Q) (term_months : Z) : Q :=
  let monthly_rate := term_rate / 12 in
  if Qltb 0 monthly_rate then
    term_amount * (monthly_rate * (1 + monthly_rate) ^ term_months)
      / ((1 + monthly_rate) ^ term_months - 1)
  else term_amount / inject_Z term_months.

(** ** Tier-1 metrics *)

Module T1.
Record t : Type := mk {
  current_ratio : Q;
  quick_ratio : Q;
  days_cash_on_hand : Q;
  operating_margin : Q
}.
End T1.

Definition calculate_tier1_metrics
    (revenue ebit ar inventory ap cash_balance opex : Q) : T1.t :=
  let current_assets := ar + inventory + cash_balance in
  let current_liabilities := if Qltb 0 ap then ap else 1 in
  let current_ratio := current_assets / current_liabilities in
  let quick_ratio := (current_assets - inventory) / current_liabilities in
  let days_cash_on_hand :=
    if Qltb 0 opex then cash_balance / (opex / 30) else 0 in
  let operating_margin :=
    if Qltb 0 revenue then ebit / revenue * 100 else 0 in
  T1.mk current_ratio quick_ratio days_cash_on_hand operating_margin.

(** ** Scenario adjustments *)

Definition apply_scenario_adjustments
    (base_inputs : gmap string Q) (scenario_type : string)
    : result (gmap string Q) :=
  let adjusted := base_inputs in
  if String.eqb scenario_type "base" then Ok adjusted
  else if String.eqb scenario_type "conservative" then
    a <~ getitem base_inputs "ar_days" ;;
    let adjusted := <["ar_days" := a + 10]> adjusted in
    p <~ getitem base_inputs "ap_days" ;;
    let adjusted := <["ap_days" := py_max 0 (p - 5)]> adjusted in
    i <~ getitem base_inputs "inventory_days" ;;
    let adjusted := <["inventory_days" := i * 1.15]> adjusted in
    Ok adjusted
  else if String.eqb scenario_type "aggressive" then
    a <~ getitem base_inputs "ar_days" ;;
    let adjusted := <["ar_days" := py_max 0 (a - 10)]> adjusted in
    p <~ getitem base_inputs "ap_days" ;;
    let adjusted := <["ap_days" := p + 10]> adjusted in
    i <~ getitem base_inputs "inventory_days" ;;
    let adjusted := <["inventory_days" := i * 0.85]> adjusted in
    Ok adjusted
  else Ok adjusted.

(** ** The projection engine *)

(** One row of the returned table, with the keys of the source. *)
Record MonthRecord : Type := mkMonth {
  month : Z;
  revenue : Q;
  cogs : Q;
  ebit : Q;
  interest_expense : Q;
  ebit_after_interest : Q;
  ebit_after_tax : Q;
  ar : Q;
  inventory : Q;
  ap : Q;
  wc : Q;
  delta_wc : Q;
  delta_ar : Q;
  delta_inventory : Q;
  delta_ap : Q;
  fcf : Q;
  principal_payment : Q;
  fcf_after_debt : Q;
  debt_balance : Q;
  dscr : Q;
  cash_balance : Q;
  ccc : Q;
  gross_margin : Q;
  current_ratio : Q;
  quick_ratio : Q;
  days_cash_on_hand : Q;
  operating_margin : Q
}.

(** The variables the loop carries from one month to the next. *)
Record loop_state : Type := mkState {
  wc_previous : Q;
  ar_previous : Q;
  inventory_previous : Q;
  ap_previous : Q;
  st_cash_balance : Q;
  results : list MonthRecord
}.

(** [for month in months: body], stopping at the first exception. *)
Fixpoint for_each {S : Type} (body : S -> Z -> result S) (months : list Z) (st : S)
    : result S :=
  match months with
  | [] => Ok st
  | m :: ms => st' <~ body st m ;; for_each body ms st'
  end.

Section Engine.

Variable inputs : gmap string Q.
Variable debt_params : option DebtParams.

(** The values read before the loop. *)
Variables base_revenue price_increase : Q.
Variables base_cogs_pct cogs_increase : Q.
Variables base_opex opex_increase : Q.

(** Lines 174-176: the compounded COGS fraction, capped at 95%. *)
Definition current_cogs_pct_at (month : Z) : Q :=
  let current_cogs_pct := base_cogs_pct * ((1 + cogs_increase) ^ month) in
  py_min current_cogs_pct 0.95.

(** The body of the loop, lines 171-299.  The exponent [month] comes from
    [range(0, num_months + 1)] and is never negative, so [**] cannot raise. *)
Definition month_body (st : loop_state) (month : Z) : result loop_state :=
  let current_revenue := base_revenue * ((1 + price_increase) ^ month) in
  let current_cogs_pct := current_cogs_pct_at month in
  let current_opex := base_opex * ((1 + opex_increase) ^ month) in
  debt_service <~
    (if (0 <? month)%Z then calculate_debt_service debt_params month
     else Ok (DS.mk 0 0 (match debt_params with
                         | Some d => loan_amount d
                         | None => 0
                         end))) ;;
  let ebit := calculate_ebit current_revenue current_cogs_pct current_opex in
  let ebit_after_interest := ebit - DS.interest_expense debt_service in
  tax_rate <~ getitem inputs "tax_rate" ;;
  let ebit_after_tax := ebit_after_interest * (1 - tax_rate) in
  let cogs := current_revenue * current_cogs_pct in
  let gross_margin :=
    if Qltb 0 current_revenue
    then (current_revenue - cogs) / current_revenue * 100 else 0 in
  ar_days <~ getitem inputs "ar_days" ;;
  ap_days <~ getitem inputs "ap_days" ;;
  inventory_days <~ getitem inputs "inventory_days" ;;
  let wc_components :=
    calculate_wc_components current_revenue current_cogs_pct
                            ar_days ap_days inventory_days in
  let wc :=
    calculate_working_capital (WC.ar wc_components)
      (WC.inventory wc_components) (WC.ap wc_components) in
  let '(delta_wc, delta_ar, delta_inventory, delta_ap) :=
    if (month =? 0)%Z then (0, 0, 0, 0)
    else (calculate_delta_wc wc (Some (wc_previous st)),
          WC.ar wc_components - ar_previous st,
          WC.inventory wc_components - inventory_previous st,
          WC.ap wc_components - ap_previous st) in
  depreciation <~ getitem inputs "depreciation" ;;
  capex <~ getitem inputs "capex" ;;
  let fcf :=
    calculate_fcf ebit_after_interest tax_rate depreciation capex delta_wc in
  let fcf_after_debt := fcf - DS.principal_payment debt_service in
  let cash_balance :=
    if (0 <? month)%Z then st_cash_balance st + fcf_after_debt
    else st_cash_balance st in
  let ccc := ar_days + inventory_days - ap_days in
  let tier1 :=
    calculate_tier1_metrics current_revenue ebit (WC.ar wc_components)
      (WC.inventory wc_components) (WC.ap wc_components)
      cash_balance current_opex in
  let debt_total :=
    DS.interest_expense debt_service + DS.principal_payment debt_service in
  let dscr :=
    if bool_decide (is_Some debt_params) && (0 <? month)%Z && Qltb 0 debt_total
    then fcf / debt_total else 0 in
  let row :=
    {| month := month;
       revenue := current_revenue;
       cogs := cogs;
       ebit := ebit;
       interest_expense := DS.interest_expense debt_service;
       ebit_after_interest := ebit_after_interest;
       ebit_after_tax := ebit_after_tax;
       ar := WC.ar wc_components;
       inventory := WC.inventory wc_components;
       ap := WC.ap wc_components;
       wc := wc;
       delta_wc := delta_wc;
       delta_ar := delta_ar;
       delta_inventory := delta_inventory;
       delta_ap := delta_ap;
       fcf := fcf;
       principal_payment := DS.principal_payment debt_service;
       fcf_after_debt := fcf_after_debt;
       debt_balance := DS.remaining_balance debt_service;
       dscr := dscr;
       cash_balance := cash_balance;
       ccc := ccc;
       gross_margin := gross_margin;
       current_ratio := T1.current_ratio tier1;
       quick_ratio := T1.quick_ratio tier1;
       days_cash_on_hand := T1.days_cash_on_hand tier1;
       operating_margin := T1.operating_margin tier1 |} in
  Ok {| wc_previous := wc;
        ar_previous := WC.ar wc_components;
        inventory_previous := WC.inventory wc_components;
        ap_previous := WC.ap wc_components;
        st_cash_balance := cash_balance;
        results := results st ++ [row] |}.

End Engine.

(** [generate_monthly_projections(inputs, num_months, debt_params)]; the
    returned table is the list of its rows. *)
Definition generate_monthly_projections
    (inputs : gmap string Q) (num_months : Z) (debt_params : option DebtParams)
    : result (list MonthRecord) :=
  base_revenue <~ getitem inputs "revenue" ;;
  let price_increase := get inputs "price_increase" 0 in
  base_cogs_pct <~ getitem inputs "cogs_pct" ;;
  let cogs_increase := get inputs "cogs_increase" 0 in
  base_opex <~ getitem inputs "opex" ;;
  let opex_increase := get inputs "opex_increase" 0 in
  ar_days <~ getitem inputs "ar_days" ;;
  ap_days <~ getitem inputs "ap_days" ;;
  inventory_days <~ getitem inputs "inventory_days" ;;
  let initial_wc :=
    calculate_wc_components base_revenue base_cogs_pct
                            ar_days ap_days inventory_days in
  let wc_previous :=
    calculate_working_capital (WC.ar initial_wc) (WC.inventory initial_wc)
                              (WC.ap initial_wc) in
  let opening_cash := get inputs "opening_cash" 0 in
  let st0 :=
    {| wc_previous := wc_previous;
       ar_previous := WC.ar initial_wc;
       inventory_previous := WC.inventory initial_wc;
       ap_previous := WC.ap initial_wc;
       st_cash_balance := opening_cash;
       results := [] |} in
  st <~ for_each
          (month_body inputs debt_params base_revenue price_increase
                      base_cogs_pct cogs_increase base_opex opex_increase)
          (seqZ 0 (num_months + 1)) st0 ;;
  Ok (results st).

(** [generate_scenario_comparison]: the three runs, in the order of the loop. *)
Definition generate_scenario_comparison
    (base_inputs : gmap string Q) (num_months : Z) (debt_params : option DebtParams)
    : result (list (string * list MonthRecord)) :=
  let run scenario_type :=
    adjusted_inputs <~ apply_scenario_adjustments base_inputs scenario_type ;;
    rows <~ generate_monthly_projections adjusted_inputs num_months debt_params ;;
    Ok (scenario_type, rows) in
  b <~ run "base"%string ;;
  c <~ run "conservative"%string ;;
  a <~ run "aggressive"%string ;;
  Ok [b; c; a].

(** ** The worked example of the specification *)

Definition example_inputs : gmap string Q :=
  list_to_map
    [("revenue"%string, 100000); ("cogs_pct"%string, 0.60);
     ("opex"%string, 20000); ("ar_days"%string, 45); ("ap_days"%string, 30);
     ("inventory_days"%string, 60); ("capex"%string, 5000);
     ("depreciation"%string, 4000); ("tax_rate"%string, 0.25);
     ("price_increase"%string, 0.10); ("opening_cash"%string, 100000)].

(** The table of the worked example, evaluated. *)
Definition example_rows : list MonthRecord :=
  Eval vm_compute in
    match generate_monthly_projections example_inputs 1 None with
    | Ok rs => rs
    | Raise _ => []
    end.

(** A loan of 1200 at 0% over 12 months, set up as app.py does. *)
Definition example_loan : DebtParams :=
  mkDebt 1200 0 12 (setup_monthly_payment 1200 0 12).

(** The keys read with [inputs.get(key, 0)]. *)
Definition optional_keys : list string :=
  ["price_increase"; "cogs_increase"; "opex_increase"; "opening_cash"]%string.

(** ** The engine on binary64 numbers

    The same functions once more, on the numbers CPython computes with:
    IEEE 754 binary64, round to nearest even, which are Rocq's primitive
    floats.  Ints of the source (day counts, amounts typed as ints, the
    literals 0 and 1) are the floats of the same value; the values met
    here are far below 2^53, where that is exact.  [+], [-], [*], [/] and
    the comparisons are the IEEE operations.  The C library's [pow], which
    [**] calls, is fixed by the C standard only at a few arguments; the
    others are left [Unmodelled] rather than guessed. *)

#[local] Set Warnings "-inexact-float".

Module B64.

Import PrimFloat.
Local Open Scope float_scope.

Inductive outcome (A : Type) : Type :=
| Returns (a : A)
| Raises (e : exn)
| Unmodelled.

Arguments Returns {A} a.
Arguments Raises {A} e.
Arguments Unmodelled {A}.

Definition bind {A B : Type} (c : outcome A) (k : A -> outcome B) : outcome B :=
  match c with
  | Returns a => k a
  | Raises e => Raises e
  | Unmodelled => Unmodelled
  end.

Local Notation "x <~~ c ;; k" := (bind c (fun x => k))
  (at level 100, c at next level, right associativity).

(** An int as a float. *)
Definition of_Z (z : Z) : float :=
  match z with
  | Z0 => 0
  | Zpos _ => PrimFloat.of_uint63 (Uint63.of_Z z)
  | Zneg _ => - PrimFloat.of_uint63 (Uint63.of_Z (- z))
  end.

(** [max(a, b)] and [min(a, b)]: the first argument unless the second is
    greater, respectively smaller. *)
Definition py_max (a b : float) : float := if PrimFloat.ltb a b then b else a.
Definition py_min (a b : float) : float := if PrimFloat.ltb b a then b else a.

(** [b ** e] for an int exponent.  CPython raises for zero to a negative
    power and otherwise calls C's [pow]: [pow(x, 0)] and [pow(1, y)] are 1
    (C17, F.10.4.4), and [pow(x, 1)] is [x]. *)
Definition py_pow (b : float) (e : Z) : outcome float :=
  if (e =? 0)%Z then Returns 1
  else if PrimFloat.eqb b 0 && (e <? 0)%Z then Raises ZeroDivisionError
  else if PrimFloat.eqb b 1 then Returns 1
  else if (e =? 1)%Z then Returns b
  else Unmodelled.

Definition getitem (d : gmap string float) (k : string) : outcome float :=
  match d !! k with
  | Some v => Returns v
  | None => Raises (KeyError k)
  end.

Definition get (d : gmap string float) (k : string) (dflt : float) : float :=
  default dflt (d !! k).

Record wc_components : Type := mkWC {
  wc_ar : float; wc_inventory : float; wc_ap : float
}.

Definition calculate_wc_components
    (revenue cogs_pct ar_days ap_days inventory_days : float) : wc_components :=
  let cogs := revenue * cogs_pct in
  let ar := (revenue / 30) * ar_days in
  let inventory := (cogs / 30) * inventory_days in
  let ap := (cogs / 30) * ap_days in
  mkWC ar inventory ap.

Definition calculate_ebit (revenue cogs_pct opex : float) : float :=
  let cogs := revenue * cogs_pct in
  let ebit := revenue - cogs - opex in
  ebit.

Definition calculate_working_capital (ar inventory ap : float) : float :=
  (ar + inventory) - ap.

Definition calculate_delta_wc (wc_current : float) (wc_previous : option float)
    : float :=
  match wc_previous with
  | None => wc_current
  | Some p => wc_current - p
  end.

Definition calculate_fcf (ebit tax_rate depreciation capex delta_wc : float)
    : float :=
  let nopat := ebit * (1 - tax_rate) in
  let fcf := nopat + depreciation - capex - delta_wc in
  fcf.

Record DebtParams : Type := mkDebt {
  loan_amount : float;
  interest_rate : float;
  term_months : Z;
  monthly_payment : float
}.

Record debt_service : Type := mkDS {
  ds_interest_expense : float;
  ds_principal_payment : float;
  ds_remaining_balance : float
}.

Definition calculate_debt_service (debt_params : option DebtParams) (month : Z)
    : outcome debt_service :=
  match debt_params with
  | None => Returns (mkDS 0 0 0)
  | Some d =>
    if (term_months d <? month)%Z then Returns (mkDS 0 0 0) else
    let monthly_rate := interest_rate d / 12 in
    let months_remaining := (term_months d - month + 1)%Z in
    if (months_remaining <=? 0)%Z then Returns (mkDS 0 0 0) else
    if PrimFloat.eqb monthly_rate 0 then
      let remaining_balance :=
        loan_amount d - (monthly_payment d * of_Z (month - 1)) in
      let interest_expense := 0 in
      let principal_payment := monthly_payment d in
      Returns (mkDS interest_expense principal_payment
                    (py_max 0 remaining_balance))
    else
      p <~~ py_pow (1 + monthly_rate) (- months_remaining) ;;
      let remaining_balance := monthly_payment d * ((1 - p) / monthly_rate) in
      prev_balance <~~
        (if (1 <? month)%Z then
           p' <~~ py_pow (1 + monthly_rate) (- (months_remaining + 1)) ;;
           Returns (monthly_payment d * ((1 - p') / monthly_rate))
         else Returns (loan_amount d)) ;;
      let interest_expense := prev_balance * monthly_rate in
      let principal_payment := monthly_payment d - interest_expense in
      Returns (mkDS interest_expense principal_payment remaining_balance)
  end.

Record tier1 : Type := mkT1 {
  t1_current_ratio : float;
  t1_quick_ratio : float;
  t1_days_cash_on_hand : float;
  t1_operating_margin : float
}.

Definition calculate_tier1_metrics
    (revenue ebit ar inventory ap cash_balance opex : float) : tier1 :=
  let current_assets := ar + inventory + cash_balance in
  let current_liabilities := if PrimFloat.ltb 0 ap then ap else 1 in
  let current_ratio := current_assets / current_liabilities in
  let quick_ratio := (current_assets - inventory) / current_liabilities in
  let days_cash_on_hand :=
    if PrimFloat.ltb 0 opex then cash_balance / (opex / 30) else 0 in
  let operating_margin :=
    if PrimFloat.ltb 0 revenue then ebit / revenue * 100 else 0 in
  mkT1 current_ratio quick_ratio days_cash_on_hand operating_margin.

Record MonthRecord : Type := mkMonth {
  month : Z;
  revenue : float;
  cogs : float;
  ebit : float;
  interest_expense : float;
  ebit_after_interest : float;
  ebit_after_tax : float;
  ar : float;
  inventory : float;
  ap : float;
  wc : float;
  delta_wc : float;
  delta_ar : float;
  delta_inventory : float;
  delta_ap : float;
  fcf : float;
  principal_payment : float;
  fcf_after_debt : float;
  debt_balance : float;
  dscr : float;
  cash_balance : float;
  ccc : float;
  gross_margin : float;
  current_ratio : float;
  quick_ratio : float;
  days_cash_on_hand : float;
  operating_margin : float
}.

Record loop_state : Type := mkState {
  wc_previous : float;
  ar_previous : float;
  inventory_previous : float;
  ap_previous : float;
  st_cash_balance : float;
  results : list MonthRecord
}.

Fixpoint for_each {S : Type} (body : S -> Z -> outcome S) (months : list Z)
    (st : S) : outcome S :=
  match months with
  | [] => Returns st
  | m :: ms => st' <~~ body st m ;; for_each body ms st'
  end.

Definition month_body (inputs : gmap string float)
    (debt_params : option DebtParams)
    (base_revenue price_increase base_cogs_pct cogs_increase
     base_opex opex_increase : float)
    (st : loop_state) (month : Z) : outcome loop_state :=
  growth <~~ py_pow (1 + price_increase) month ;;
  let current_revenue := base_revenue * growth in
  inflation <~~ py_pow (1 + cogs_increase) month ;;
  let current_cogs_pct := base_cogs_pct * inflation in
  let current_cogs_pct := py_min current_cogs_pct 0.95 in
  opex_growth <~~ py_pow (1 + opex_increase) month ;;
  let current_opex := base_opex * opex_growth in
  debt_service <~~
    (if (0 <? month)%Z then calculate_debt_service debt_params month
     else Returns (mkDS 0 0 (match debt_params with
                             | Some d => loan_amount d
                             | None => 0
                             end))) ;;
  let ebit := calculate_ebit current_revenue current_cogs_pct current_opex in
  let ebit_after_interest := ebit - ds_interest_expense debt_service in
  tax_rate <~~ getitem inputs "tax_rate" ;;
  let ebit_after_tax := ebit_after_interest * (1 - tax_rate) in
  let cogs := current_revenue * current_cogs_pct in
  let gross_margin :=
    if PrimFloat.ltb 0 current_revenue
    then (current_revenue - cogs) / current_revenue * 100 else 0 in
  ar_days <~~ getitem inputs "ar_days" ;;
  ap_days <~~ getitem inputs "ap_days" ;;
  inventory_days <~~ getitem inputs "inventory_days" ;;
  let wc_components :=
    calculate_wc_components current_revenue current_cogs_pct
                            ar_days ap_days inventory_days in
  let wc :=
    calculate_working_capital (wc_ar wc_components)
      (wc_inventory wc_components) (wc_ap wc_components) in
  let '(delta_wc, delta_ar, delta_inventory, delta_ap) :=
    if (month =? 0)%Z then (0, 0, 0, 0)
    else (calculate_delta_wc wc (Some (wc_previous st)),
          wc_ar wc_components - ar_previous st,
          wc_inventory wc_components - inventory_previous st,
          wc_ap wc_components - ap_previous st) in
  depreciation <~~ getitem inputs "depreciation" ;;
  capex <~~ getitem inputs "capex" ;;
  let fcf :=
    calculate_fcf ebit_after_interest tax_rate depreciation capex delta_wc in
  let fcf_after_debt := fcf - ds_principal_payment debt_service in
  let cash_balance :=
    if (0 <? month)%Z then st_cash_balance st + fcf_after_debt
    else st_cash_balance st in
  let ccc := ar_days + inventory_days - ap_days in
  let tier1 :=
    calculate_tier1_metrics current_revenue ebit (wc_ar wc_components)
      (wc_inventory wc_components) (wc_ap wc_components)
      cash_balance current_opex in
  let debt_total :=
    ds_interest_expense debt_service + ds_principal_payment debt_service in
  let dscr :=
    if bool_decide (is_Some debt_params) && (0 <? month)%Z
       && PrimFloat.ltb 0 debt_total
    then fcf / debt_total else 0 in
  let row :=
    {| month := month;
       revenue := current_revenue;
       cogs := cogs;
       ebit := ebit;
       interest_expense := ds_interest_expense debt_service;
       ebit_after_interest := ebit_after_interest;
       ebit_after_tax := ebit_after_tax;
       ar := wc_ar wc_components;
       inventory := wc_inventory wc_components;
       ap := wc_ap wc_components;
       wc := wc;
       delta_wc := delta_wc;
       delta_ar := delta_ar;
       delta_inventory := delta_inventory;
       delta_ap := delta_ap;
       fcf := fcf;
       principal_payment := ds_principal_payment debt_service;
       fcf_after_debt := fcf_after_debt;
       debt_balance := ds_remaining_balance debt_service;
       dscr := dscr;
       cash_balance := cash_balance;
       ccc := ccc;
       gross_margin := gross_margin;
       current_ratio := t1_current_ratio tier1;
       quick_ratio := t1_quick_ratio tier1;
       days_cash_on_hand := t1_days_cash_on_hand tier1;
       operating_margin := t1_operating_margin tier1 |} in
  Returns {| wc_previous := wc;
             ar_previous := wc_ar wc_components;
             inventory_previous := wc_inventory wc_components;
             ap_previous := wc_ap wc_components;
             st_cash_balance := cash_balance;
             results := results st ++ [row] |}.

Definition generate_monthly_projections
    (inputs : gmap string float) (num_months : Z)
    (debt_params : option DebtParams) : outcome (list MonthRecord) :=
  base_revenue <~~ getitem inputs "revenue" ;;
  let price_increase := get inputs "price_increase" 0 in
  base_cogs_pct <~~ getitem inputs "cogs_pct" ;;
  let cogs_increase := get inputs "cogs_increase" 0 in
  base_opex <~~ getitem inputs "opex" ;;
  let opex_increase := get inputs "opex_increase" 0 in
  ar_days <~~ getitem inputs "ar_days" ;;
  ap_days <~~ getitem inputs "ap_days" ;;
  inventory_days <~~ getitem inputs "inventory_days" ;;
  let initial_wc :=
    calculate_wc_components base_revenue base_cogs_pct
                            ar_days ap_days inventory_days in
  let wc_previous :=
    calculate_working_capital (wc_ar initial_wc) (wc_inventory initial_wc)
                              (wc_ap initial_wc) in
  let opening_cash := get inputs "opening_cash" 0 in
  let st0 :=
    {| wc_previous := wc_previous;
       ar_previous := wc_ar initial_wc;
       inventory_previous := wc_inventory initial_wc;
       ap_previous := wc_ap initial_wc;
       st_cash_balance := opening_cash;
       results := [] |} in
  st <~~ for_each
          (month_body inputs debt_params base_revenue price_increase
                      base_cogs_pct cogs_increase base_opex opex_increase)
          (seqZ 0 (num_months + 1)) st0 ;;
  Returns (results st).

(** The inputs of the worked example, as the floats Python reads. *)
Definition example_inputs : gmap string float :=
  list_to_map
    [("revenue"%string, 100000); ("cogs_pct"%string, 0.60);
     ("opex"%string, 20000); ("ar_days"%string, 45); ("ap_days"%string, 30);
     ("inventory_days"%string, 60); ("capex"%string, 5000);
     ("depreciation"%string, 4000); ("tax_rate"%string, 0.25);
     ("price_increase"%string, 0.10); ("opening_cash"%string, 100000)].

End B64.

(** ** What one iteration emits *)

(** The inputs under which no statement of the engine raises: the keys
    read with [inputs[...]] are present, and the loan's monthly growth
    factor [1 + rate/12] is not zero (zero to a negative power raises). *)
Definition required_keys : list string :=
  ["revenue"; "cogs_pct"; "opex"; "ar_days"; "ap_days"; "inventory_days";
   "tax_rate"; "depreciation"; "capex"]%string.

Definition has_required_keys (inputs : gmap string Q) : Prop :=
  Forall (fun k => is_Some (inputs !! k)) required_keys.

Definition debt_ok (debt_params : option DebtParams) : Prop :=
  match debt_params with
  | None => True
  | Some d => ~ 1 + interest_rate d / 12 == 0
  end.

(** The relation between the carried state, the month, the emitted row
    and the next state that the loop body establishes. *)
Record emits (inputs : gmap string Q) (base_cogs_pct cogs_increase : Q)
    (st : loop_state) (m : Z) (r : MonthRecord) (st' : loop_state) : Prop := {
  emits_results : results st' = results st ++ [r];
  emits_month : month r = m;
  emits_carry : st_cash_balance st' = cash_balance r;
  emits_cash :
    cash_balance r =
    if (0 <? m)%Z then st_cash_balance st + fcf_after_debt r
    else st_cash_balance st;
  emits_baseline :
    m = 0%Z ->
    delta_wc r = 0 /\ delta_ar r = 0 /\ delta_inventory r = 0 /\ delta_ap r = 0;
  emits_fcf :
    exists tax_rate depreciation capex,
      inputs !! "tax_rate"%string = Some tax_rate /\
      inputs !! "depreciation"%string = Some depreciation /\
      inputs !! "capex"%string = Some capex /\
      ebit_after_tax r = ebit_after_interest r * (1 - tax_rate) /\
      fcf r = calculate_fcf (ebit_after_interest r) tax_rate depreciation
                            capex (delta_wc r) /\
      fcf r = ebit_after_tax r + depreciation - capex - delta_wc r;
  emits_cogs :
    cogs r = revenue r * current_cogs_pct_at base_cogs_pct cogs_increase m
}.

(** The rows emitted along a list of months. *)
Inductive rows_from (R : loop_state -> Z -> MonthRecord -> loop_state -> Prop)
    : loop_state -> list Z -> list MonthRecord -> loop_state -> Prop :=
| rows_done st : rows_from R st [] [] st
| rows_next st m r st1 ms rs st' :
    R st m r st1 -> rows_from R st1 ms rs st' ->
    rows_from R st (m :: ms) (r :: rs) st'.

(** ** Further definitions: the row in full *)

(** Lines 182-185: the debt service the loop uses for a month; month 0
    reports no service and the whole loan as balance. *)
Definition debt_service_at (debt_params : option DebtParams) (month : Z)
    : result DS.t :=
  if (0 <? month)%Z then calculate_debt_service debt_params month
  else Ok (DS.mk 0 0 (match debt_params with
                      | Some d => loan_amount d
                      | None => 0
                      end)).

(** Every field of the row that one iteration emits, and the state it
    leaves, in terms of the inputs, the month and the state it found. *)
Record row_facts (inputs : gmap string Q) (debt_params : option DebtParams)
    (base_revenue price_increase base_cogs_pct cogs_increase
     base_opex opex_increase : Q)
    (st : loop_state) (m : Z) (r : MonthRecord) (st' : loop_state) : Prop := {
  rf_emits : emits inputs base_cogs_pct cogs_increase st m r st';
  rf_service :
    exists ds, debt_service_at debt_params m = Ok ds /\
      interest_expense r = DS.interest_expense ds /\
      principal_payment r = DS.principal_payment ds /\
      debt_balance r = DS.remaining_balance ds;
  rf_revenue : revenue r = base_revenue * ((1 + price_increase) ^ m);
  rf_ebit : ebit r = revenue r - cogs r - base_opex * ((1 + opex_increase) ^ m);
  rf_ebit_after_interest : ebit_after_interest r = ebit r - interest_expense r;
  rf_days :
    exists ar_days ap_days inventory_days,
      inputs !! "ar_days"%string = Some ar_days /\
      inputs !! "ap_days"%string = Some ap_days /\
      inputs !! "inventory_days"%string = Some inventory_days /\
      ar r = revenue r / 30 * ar_days /\
      inventory r = cogs r / 30 * inventory_days /\
      ap r = cogs r / 30 * ap_days /\
      ccc r = ar_days + inventory_days - ap_days;
  rf_wc : wc r = ar r + inventory r - ap r;
  rf_delta :
    m <> 0%Z ->
    delta_wc r = wc r - wc_previous st /\
    delta_ar r = ar r - ar_previous st /\
    delta_inventory r = inventory r - inventory_previous st /\
    delta_ap r = ap r - ap_previous st;
  rf_fcf_after_debt : fcf_after_debt r = fcf r - principal_payment r;
  rf_dscr :
    dscr r =
    if bool_decide (is_Some debt_params) && (0 <? m)%Z
       && Qltb 0 (interest_expense r + principal_payment r)
    then fcf r / (interest_expense r + principal_payment r) else 0;
  rf_gross_margin :
    gross_margin r =
    if Qltb 0 (revenue r) then (revenue r - cogs r) / revenue r * 100 else 0;
  rf_tier1 :
    let t := calculate_tier1_metrics (revenue r) (ebit r) (ar r) (inventory r)
               (ap r) (cash_balance r)
               (base_opex * ((1 + opex_increase) ^ m)) in
    current_ratio r = T1.current_ratio t /\
    quick_ratio r = T1.quick_ratio t /\
    days_cash_on_hand r = T1.days_cash_on_hand t /\
    operating_margin r = T1.operating_margin t;
  rf_previous :
    wc_previous st' = wc r /\ ar_previous st' = ar r /\
    inventory_previous st' = inventory r /\ ap_previous st' = ap r
}.

(** The three day terms that the scenario adjuster rewrites. *)
Definition day_keys : list string :=
  ["ar_days"; "ap_days"; "inventory_days"]%string.

(** The keys read with [inputs[...]] before the loop starts. *)
Definition preloop_keys : list string :=
  ["revenue"; "cogs_pct"; "opex"; "ar_days"; "ap_days"; "inventory_days"]%string.

(** Two loans at 12% a year, set up as app.py does: one over a year, one
    over a single month, and the table of two months with the short one. *)
Definition interest_loan : DebtParams :=
  mkDebt 1200 0.12 12 (setup_monthly_payment 1200 0.12 12).

Definition short_loan : DebtParams :=
  mkDebt 1200 0.12 1 (setup_monthly_payment 1200 0.12 1).

Definition debt_rows : list MonthRecord :=
  Eval vm_compute in
    match generate_monthly_projections example_inputs 2 (Some short_loan) with
    | Ok rs => rs
    | Raise _ => []
    end.

(** The worked example without growth, and its table. *)
Definition steady_inputs : gmap string Q :=
  delete "price_increase"%string example_inputs.

Definition steady_rows : list MonthRecord :=
  Eval vm_compute in
    match generate_monthly_projections steady_inputs 1 None with
    | Ok rs => rs
    | Raise _ => []
    end.

(** ** Lemmas on the primitives *)

Lemma Qltb_true (a b : Q) : Qltb a b = true <-> a < b.
Proof.
  unfold Qltb. rewrite negb_true_iff, <- not_true_iff_false, Qle_bool_iff.
  split; [apply Qnot_le_lt | apply Qlt_not_le].
Qed.

Lemma Qltb_false (a b : Q) : Qltb a b = false <-> b <= a.
Proof.
  unfold Qltb. rewrite negb_false_iff. apply Qle_bool_iff.
Qed.

Lemma py_min_le_r (a c : Q) : py_min a c <= c.
Proof.
  unfold py_min. destruct (Qltb c a) eqn:E.
  - apply Qle_refl.
  - now apply Qltb_false.
Qed.

Lemma py_max_0_nonneg (a : Q) : 0 <= a -> py_max 0 a == a.
Proof.
  intros Ha. unfold py_max. destruct (Qltb 0 a) eqn:E.
  - reflexivity.
  - apply Qltb_false in E. now apply Qle_antisym.
Qed.

Lemma getitem_Some (d : gmap string Q) (k : string) (v : Q) :
  d !! k = Some v -> getitem d k = Ok v.
Proof. intros H. unfold getitem. now rewrite H. Qed.

Lemma getitem_Ok (d : gmap string Q) (k : string) (v : Q) :
  getitem d k = Ok v -> d !! k = Some v.
Proof. unfold getitem. destruct (d !! k); congruence. Qed.

Lemma getitem_insert_ne (d : gmap string Q) (k k' : string) (v : Q) :
  k <> k' -> getitem (<[k := v]> d) k' = getitem d k'.
Proof. intros H. unfold getitem. now rewrite lookup_insert_ne. Qed.

Lemma get_insert_default (d : gmap string Q) (k k' : string) (v : Q) :
  d !! k = None -> get (<[k := v]> d) k' v = get d k' v.
Proof.
  intros H. unfold get. destruct (decide (k = k')) as [<-|Hne].
  - now rewrite lookup_insert_eq, H.
  - now rewrite lookup_insert_ne.
Qed.

Lemma rbind_Ok {A B : Type} (c : result A) (k : A -> result B) (b : B) :
  rbind c k = Ok b -> exists a, c = Ok a /\ k a = Ok b.
Proof. destruct c; simpl; [eauto | discriminate]. Qed.

Lemma for_each_ext {S : Type} (f g : S -> Z -> result S) (ms : list Z) :
  (forall st m, f st m = g st m) ->
  forall st, for_each f ms st = for_each g ms st.
Proof.
  intros Hfg. induction ms as [|m ms IH]; intros st; simpl.
  - reflexivity.
  - rewrite Hfg. destruct (g st m); simpl; auto.
Qed.

(** ** Lemmas on the loop body *)

Section BodyFacts.

Variable inputs : gmap string Q.
Variable debt_params : option DebtParams.
Variables base_revenue price_increase : Q.
Variables base_cogs_pct cogs_increase : Q.
Variables base_opex opex_increase : Q.

Local Abbreviation body :=
  (month_body inputs debt_params base_revenue price_increase
              base_cogs_pct cogs_increase base_opex opex_increase).

Lemma month_body_emits (st st' : loop_state) (m : Z) :
  body st m = Ok st' ->
  exists r, emits inputs base_cogs_pct cogs_increase st m r st' /\
            revenue r = base_revenue * ((1 + price_increase) ^ m).
Proof.
  unfold month_body. intros H.
  apply rbind_Ok in H as (ds & _ & H).
  apply rbind_Ok in H as (tax & Htax & H). apply getitem_Ok in Htax.
  apply rbind_Ok in H as (ard & _ & H).
  apply rbind_Ok in H as (apd & _ & H).
  apply rbind_Ok in H as (ind & _ & H).
  destruct (m =? 0)%Z eqn:Em;
    apply rbind_Ok in H as (dep & Hdep & H);
    apply rbind_Ok in H as (cap & Hcap & H);
    apply getitem_Ok in Hdep; apply getitem_Ok in Hcap;
    injection H as <-; eexists; (split; [split|]); simpl; try reflexivity;
    try (exists tax, dep, cap; repeat split; assumption).
  - intros _. repeat split.
  - intros ->. discriminate.
Qed.

Lemma calculate_debt_service_total (m : Z) :
  debt_ok debt_params -> exists ds, calculate_debt_service debt_params m = Ok ds.
Proof.
  unfold calculate_debt_service, debt_ok. destruct debt_params as [d|]; [|eauto].
  intros Hd.
  destruct (term_months d <? m)%Z; [eauto|].
  destruct (term_months d - m + 1 <=? 0)%Z; [eauto|].
  destruct (Qeq_bool (interest_rate d / 12) 0); [eauto|].
  assert (Hz : Qeq_bool (1 + interest_rate d / 12) 0 = false).
  { apply not_true_iff_false. intros E. apply Qeq_bool_iff in E. now apply Hd. }
  unfold py_pow. rewrite Hz. simpl.
  destruct (1 <? m)%Z; simpl; eauto.
Qed.

Lemma month_body_total (st : loop_state) (m : Z) :
  has_required_keys inputs -> debt_ok debt_params ->
  exists st', body st m = Ok st'.
Proof.
  intros Hk Hd. unfold has_required_keys, required_keys in Hk.
  repeat (apply Forall_cons in Hk as [[? ?] Hk]).
  unfold month_body.
  assert (Hds : exists ds,
    (if (0 <? m)%Z then calculate_debt_service debt_params m
     else Ok (DS.mk 0 0 (match debt_params with
                         | Some d => loan_amount d
                         | None => 0
                         end))) = Ok ds).
  { destruct (0 <? m)%Z; [now apply calculate_debt_service_total | eauto]. }
  destruct Hds as [ds ->]. simpl.
  repeat (erewrite getitem_Some by eassumption; simpl).
  destruct (m =? 0)%Z; simpl;
    repeat (erewrite getitem_Some by eassumption; simpl); eauto.
Qed.

Lemma for_each_rows (ms : list Z) (st st' : loop_state) :
  for_each body ms st = Ok st' ->
  exists rs,
    rows_from (fun s m r s' =>
                 emits inputs base_cogs_pct cogs_increase s m r s' /\
                 revenue r = base_revenue * ((1 + price_increase) ^ m))
              st ms rs st'.
Proof.
  revert st. induction ms as [|m ms IH]; intros st; simpl.
  - intros [= <-]. exists []. constructor.
  - intros H. apply rbind_Ok in H as (st1 & H1 & H).
    apply month_body_emits in H1 as (r & Hr).
    apply IH in H as (rs & Hrs).
    exists (r :: rs). econstructor; eassumption.
Qed.

Lemma for_each_total (ms : list Z) (st : loop_state) :
  has_required_keys inputs -> debt_ok debt_params ->
  exists st', for_each body ms st = Ok st'.
Proof.
  intros Hk Hd. revert st. induction ms as [|m ms IH]; intros st; simpl.
  - eauto.
  - destruct (month_body_total st m Hk Hd) as [st1 ->]. simpl. apply IH.
Qed.

End BodyFacts.

(** The loop body reads [inputs] only at the six keys it subscripts. *)
Lemma month_body_insert (inputs : gmap string Q) (k : string) (v : Q)
    (debt_params : option DebtParams) (br pi bc ci bo oi : Q)
    (st : loop_state) (m : Z) :
  k ∉ ["tax_rate"; "ar_days"; "ap_days"; "inventory_days";
        "depreciation"; "capex"]%string ->
  month_body (<[k := v]> inputs) debt_params br pi bc ci bo oi st m =
  month_body inputs debt_params br pi bc ci bo oi st m.
Proof.
  intros Hk. unfold month_body.
  rewrite !(getitem_insert_ne inputs k) by (intros ->; apply Hk; set_solver).
  reflexivity.
Qed.

(** ** Properties of a run of rows *)

Section Rows.

Variable inputs : gmap string Q.
Variables base_revenue price_increase base_cogs_pct cogs_increase : Q.

Local Abbreviation R :=
  (fun s m r s' =>
     emits inputs base_cogs_pct cogs_increase s m r s' /\
     revenue r = base_revenue * ((1 + price_increase) ^ m)).

Lemma rows_from_results st ms rs st' :
  rows_from R st ms rs st' -> results st' = results st ++ rs.
Proof.
  induction 1 as [st|st m r st1 ms rs st' [Hr _] _ IH].
  - now rewrite app_nil_r.
  - rewrite IH, (emits_results _ _ _ _ _ _ _ Hr), <- app_assoc. reflexivity.
Qed.

Lemma rows_from_months st ms rs st' :
  rows_from R st ms rs st' -> map month rs = ms.
Proof.
  induction 1 as [st|st m r st1 ms rs st' [Hr _] _ IH]; simpl.
  - reflexivity.
  - now rewrite IH, (emits_month _ _ _ _ _ _ _ Hr).
Qed.

(** Two consecutive rows: the later cash balance is the earlier one
    plus the later row's cash flow, when the later month is positive. *)
Lemma rows_from_cash st ms rs st' (i : nat) (p r : MonthRecord) :
  rows_from R st ms rs st' ->
  rs !! i = Some p -> rs !! S i = Some r -> (0 < month r)%Z ->
  cash_balance r = cash_balance p + fcf_after_debt r.
Proof.
  intros H. revert i. induction H as [st|st m r0 st1 ms rs st' [Hr _] Hrest IH];
    intros i Hp Hn Hpos.
  - discriminate.
  - destruct i as [|i]; simpl in Hp, Hn.
    + injection Hp as ->.
      destruct Hrest as [|st1 m1 r1 st2 ms rs st' [Hr1 _] _]; [discriminate|].
      simpl in Hn. injection Hn as ->.
      rewrite (emits_cash _ _ _ _ _ _ _ Hr1).
      rewrite (emits_month _ _ _ _ _ _ _ Hr1) in Hpos.
      apply Z.ltb_lt in Hpos. rewrite Hpos.
      now rewrite (emits_carry _ _ _ _ _ _ _ Hr).
    + eapply IH; eassumption.
Qed.

End Rows.

(** ** The engine as a run of rows *)

(** A returned table is the run of rows emitted from the initial state,
    whose cash balance is the opening cash, along the months [0..N]. *)
Lemma projection_rows (inputs : gmap string Q) (N : Z)
    (debt_params : option DebtParams) (rs : list MonthRecord) :
  generate_monthly_projections inputs N debt_params = Ok rs ->
  exists base_revenue base_cogs_pct st0 st',
    inputs !! "revenue"%string = Some base_revenue /\
    inputs !! "cogs_pct"%string = Some base_cogs_pct /\
    st_cash_balance st0 = get inputs "opening_cash" 0 /\
    rows_from
      (fun s m r s' =>
         emits inputs base_cogs_pct (get inputs "cogs_increase" 0) s m r s' /\
         revenue r =
         base_revenue * ((1 + get inputs "price_increase" 0) ^ m))
      st0 (seqZ 0 (N + 1)) rs st'.
Proof.
  unfold generate_monthly_projections. intros H.
  apply rbind_Ok in H as (br & Hbr & H).
  apply rbind_Ok in H as (bc & Hbc & H).
  apply rbind_Ok in H as (bo & _ & H).
  apply rbind_Ok in H as (ard & _ & H).
  apply rbind_Ok in H as (apd & _ & H).
  apply rbind_Ok in H as (ind & _ & H).
  apply rbind_Ok in H as (st' & Hloop & H).
  injection H as <-.
  apply getitem_Ok in Hbr. apply getitem_Ok in Hbc.
  apply for_each_rows in Hloop as (rs & Hrs).
  pose proof (rows_from_results _ _ _ _ _ _ _ _ _ Hrs) as Hres.
  simpl in Hres. rewrite Hres.
  eexists br, bc, _, st'. repeat split; try eassumption. reflexivity.
Qed.

(** On inputs with the required keys and a loan that cannot divide by
    zero, the engine returns a table. *)
Lemma projection_total (inputs : gmap string Q) (N : Z)
    (debt_params : option DebtParams) :
  has_required_keys inputs -> debt_ok debt_params ->
  exists rs, generate_monthly_projections inputs N debt_params = Ok rs.
Proof.
  intros Hk Hd. unfold generate_monthly_projections.
  pose proof Hk as Hk'. unfold has_required_keys, required_keys in Hk'.
  repeat (apply Forall_cons in Hk' as [[? ?] Hk']).
  repeat (erewrite getitem_Some by eassumption; simpl).
  match goal with
  | |- context [for_each (month_body _ _ ?a ?b ?c ?d ?e ?f) ?ms ?s] =>
      destruct (for_each_total inputs debt_params a b c d e f ms s Hk Hd)
        as [st' ->]
  end.
  simpl. eauto.
Qed.

(** Every row of a returned table was emitted by one iteration. *)
Lemma projection_row_emitted (inputs : gmap string Q) (N : Z)
    (debt_params : option DebtParams) (rs : list MonthRecord) (r : MonthRecord) :
  generate_monthly_projections inputs N debt_params = Ok rs ->
  r ∈ rs ->
  exists base_cogs_pct s s',
    inputs !! "cogs_pct"%string = Some base_cogs_pct /\
    emits inputs base_cogs_pct (get inputs "cogs_increase" 0) s (month r) r s'.
Proof.
  intros Hrun Hin.
  apply projection_rows in Hrun as (br & bc & st0 & st' & _ & Hbc & _ & Hrows).
  exists bc.
  assert (HF : Forall (fun r => exists s s',
            emits inputs bc (get inputs "cogs_increase" 0) s (month r) r s') rs).
  { clear Hin. induction Hrows as [st|st m r0 st1 ms rs st' [Hr _] _ IH];
      constructor; [|exact IH].
    exists st, st1. now rewrite (emits_month _ _ _ _ _ _ _ Hr). }
  rewrite Forall_forall in HF. destruct (HF r Hin) as (s & s' & He).
  exists s, s'. split; assumption.
Qed.

Lemma example_has_required_keys : has_required_keys example_inputs.
Proof.
  unfold has_required_keys, required_keys.
  repeat constructor; eexists; vm_compute; reflexivity.
Defined.

Lemma example_rows_run :
  generate_monthly_projections example_inputs 1 None = Ok example_rows.
Proof. vm_compute. reflexivity. Defined.

(** * The claims *)

(** C7.  Output shape and order: on inputs that carry the required keys
    (and a loan whose monthly factor is not zero), for every month count
    [N >= 0] the engine returns a table of exactly [N + 1] rows whose
    [month] fields are [0, 1, ..., N] in this order. *)
Theorem projection_shape (inputs : gmap string Q) (N : Z)
    (debt_params : option DebtParams) :
  has_required_keys inputs -> debt_ok debt_params -> (0 <= N)%Z ->
  exists rs,
    generate_monthly_projections inputs N debt_params = Ok rs /\
    Z.of_nat (length rs) = (N + 1)%Z /\
    map month rs = seqZ 0 (N + 1) /\
    forall i : nat, (Z.of_nat i <= N)%Z ->
      month <$> rs !! i = Some (Z.of_nat i).
Proof.
  intros Hk Hd HN.
  destruct (projection_total inputs N debt_params Hk Hd) as [rs Hrun].
  exists rs. split; [exact Hrun|].
  apply projection_rows in Hrun as (br & bc & st0 & st' & _ & _ & _ & Hrows).
  apply rows_from_months in Hrows.
  assert (Hlen : Z.of_nat (length rs) = (N + 1)%Z).
  { rewrite <- (length_map month), Hrows, length_seqZ. lia. }
  repeat split; try assumption.
  intros i Hi. rewrite <- list_lookup_fmap.
  change (month <$> rs) with (map month rs). rewrite Hrows.
  rewrite lookup_seqZ. split; lia.
Qed.

Lemma projection_shape_witness :
  exists rs,
    generate_monthly_projections example_inputs 3 None = Ok rs /\
    Z.of_nat (length rs) = (3 + 1)%Z /\
    map month rs = seqZ 0 (3 + 1) /\
    forall i : nat, (Z.of_nat i <= 3)%Z ->
      month <$> rs !! i = Some (Z.of_nat i).
Proof.
  apply (projection_shape example_inputs 3 None).
  - exact example_has_required_keys.
  - simpl. exact I.
  - lia.
Defined.

(** C2.  Cumulative cash identity: in every returned table, for every
    month index [i] with [1 <= i <= num_months], the rows [i - 1] and [i]
    exist and [cash_balance[i] = cash_balance[i-1] + fcf_after_debt[i]]. *)
Theorem cash_balance_cumulative (inputs : gmap string Q) (N : Z)
    (debt_params : option DebtParams) (rs : list MonthRecord) :
  generate_monthly_projections inputs N debt_params = Ok rs ->
  forall i : nat, (1 <= i)%nat -> (Z.of_nat i <= N)%Z ->
    exists p r,
      rs !! (i - 1)%nat = Some p /\ rs !! i = Some r /\
      month r = Z.of_nat i /\
      cash_balance r = cash_balance p + fcf_after_debt r.
Proof.
  intros Hrun i Hi HN.
  apply projection_rows in Hrun as (br & bc & st0 & st' & _ & _ & _ & Hrows).
  pose proof (rows_from_months _ _ _ _ _ _ _ _ _ Hrows) as Hms.
  assert (Hlook : forall j : nat, (Z.of_nat j <= N)%Z ->
            exists r, rs !! j = Some r /\ month r = Z.of_nat j).
  { intros j Hj.
    assert (Hm : map month rs !! j = Some (Z.of_nat j)).
    { rewrite Hms, lookup_seqZ. split; lia. }
    change (map month rs) with (month <$> rs) in Hm.
    rewrite list_lookup_fmap in Hm.
    destruct (rs !! j) as [r|]; [|discriminate].
    exists r. split; [reflexivity|]. now injection Hm. }
  destruct (Hlook (i - 1)%nat) as (p & Hp & _); [lia|].
  destruct (Hlook i HN) as (r & Hr & Hmr).
  exists p, r. repeat split; try assumption.
  eapply rows_from_cash; [exact Hrows | exact Hp | |].
  - replace (S (i - 1)) with i by lia. exact Hr.
  - lia.
Qed.

Lemma cash_balance_cumulative_witness :
  exists p r,
    example_rows !! (1 - 1)%nat = Some p /\ example_rows !! 1%nat = Some r /\
    month r = Z.of_nat 1 /\
    cash_balance r = cash_balance p + fcf_after_debt r.
Proof.
  apply (cash_balance_cumulative example_inputs 1 None example_rows).
  - exact example_rows_run.
  - lia.
  - lia.
Defined.

(** C5.  Month-0 baseline: in every returned table (of a month count
    [N >= 0], so that there is a month 0) the first row is month 0, its
    [delta_wc], [delta_ar], [delta_inventory] and [delta_ap] are 0 and
    its [cash_balance] is the opening cash of the inputs. *)
Theorem month0_baseline (inputs : gmap string Q) (N : Z)
    (debt_params : option DebtParams) (rs : list MonthRecord) :
  generate_monthly_projections inputs N debt_params = Ok rs ->
  (0 <= N)%Z ->
  exists r0,
    rs !! 0%nat = Some r0 /\ month r0 = 0%Z /\
    delta_wc r0 = 0 /\ delta_ar r0 = 0 /\
    delta_inventory r0 = 0 /\ delta_ap r0 = 0 /\
    cash_balance r0 = get inputs "opening_cash" 0.
Proof.
  intros Hrun HN.
  apply projection_rows in Hrun as (br & bc & st0 & st' & _ & _ & Hcash & Hrows).
  rewrite seqZ_cons in Hrows by lia.
  inversion Hrows as [|s m r0 st1 ms rs' s' [Hr _] _]; subst.
  exists r0.
  destruct (emits_baseline _ _ _ _ _ _ _ Hr eq_refl) as (Hw & Ha & Hi & Hp).
  pose proof (emits_cash _ _ _ _ _ _ _ Hr) as Hc. simpl in Hc.
  repeat split; try assumption.
  - exact (emits_month _ _ _ _ _ _ _ Hr).
  - now rewrite Hc.
Qed.

Lemma month0_baseline_witness :
  exists r0,
    example_rows !! 0%nat = Some r0 /\ month r0 = 0%Z /\
    delta_wc r0 = 0 /\ delta_ar r0 = 0 /\
    delta_inventory r0 = 0 /\ delta_ap r0 = 0 /\
    cash_balance r0 = get example_inputs "opening_cash" 0.
Proof.
  apply (month0_baseline example_inputs 1 None example_rows).
  - exact example_rows_run.
  - lia.
Defined.

(** C8.  FCF tax-path equivalence: in every row of a returned table,
    [fcf], computed by [calculate_fcf] from [ebit_after_interest] and the
    tax rate, equals [ebit_after_tax + depreciation - capex - delta_wc]
    with the row's own [ebit_after_tax] field. *)
Theorem fcf_tax_path (inputs : gmap string Q) (N : Z)
    (debt_params : option DebtParams) (rs : list MonthRecord) (r : MonthRecord) :
  generate_monthly_projections inputs N debt_params = Ok rs ->
  r ∈ rs ->
  exists tax_rate depreciation capex,
    inputs !! "tax_rate"%string = Some tax_rate /\
    inputs !! "depreciation"%string = Some depreciation /\
    inputs !! "capex"%string = Some capex /\
    ebit_after_tax r = ebit_after_interest r * (1 - tax_rate) /\
    fcf r = calculate_fcf (ebit_after_interest r) tax_rate depreciation
                          capex (delta_wc r) /\
    fcf r = ebit_after_tax r + depreciation - capex - delta_wc r.
Proof.
  intros Hrun Hin.
  destruct (projection_row_emitted _ _ _ _ _ Hrun Hin) as (bc & s & s' & _ & He).
  exact (emits_fcf _ _ _ _ _ _ _ He).
Qed.

Lemma fcf_tax_path_witness :
  exists r, example_rows !! 1%nat = Some r /\
  exists tax_rate depreciation capex,
    example_inputs !! "tax_rate"%string = Some tax_rate /\
    example_inputs !! "depreciation"%string = Some depreciation /\
    example_inputs !! "capex"%string = Some capex /\
    ebit_after_tax r = ebit_after_interest r * (1 - tax_rate) /\
    fcf r = calculate_fcf (ebit_after_interest r) tax_rate depreciation
                          capex (delta_wc r) /\
    fcf r = ebit_after_tax r + depreciation - capex - delta_wc r.
Proof.
  eexists. split; [reflexivity|].
  apply (fcf_tax_path example_inputs 1 None example_rows).
  - exact example_rows_run.
  - unfold example_rows. apply list_elem_of_further, list_elem_of_here.
Defined.

(** C6.  COGS clamp: for every base fraction, growth rate and month index
    the effective COGS fraction [min(base_cogs_pct * (1 + cogs_increase)
    ^ month, 0.95)] is at most 0.95; every row of a returned table has
    [cogs = revenue * ] that fraction, so a row with non-negative revenue
    has [cogs <= 0.95 * revenue]. *)
Theorem cogs_clamp :
  (forall (base_cogs_pct cogs_increase : Q) (m : Z),
     current_cogs_pct_at base_cogs_pct cogs_increase m <= 0.95) /\
  (forall (inputs : gmap string Q) (N : Z) (debt_params : option DebtParams)
          (rs : list MonthRecord) (r : MonthRecord),
     generate_monthly_projections inputs N debt_params = Ok rs ->
     r ∈ rs ->
     (exists base_cogs_pct,
        inputs !! "cogs_pct"%string = Some base_cogs_pct /\
        cogs r = revenue r *
                 current_cogs_pct_at base_cogs_pct
                   (get inputs "cogs_increase" 0) (month r)) /\
     (0 <= revenue r -> cogs r <= 0.95 * revenue r)).
Proof.
  split.
  - intros bc ci m. unfold current_cogs_pct_at. apply py_min_le_r.
  - intros inputs N debt_params rs r Hrun Hin.
    destruct (projection_row_emitted _ _ _ _ _ Hrun Hin)
      as (bc & s & s' & Hbc & He).
    pose proof (emits_cogs _ _ _ _ _ _ _ He) as Hc.
    split; [exists bc; split; assumption|].
    intros Hrev. rewrite Hc.
    pose proof (py_min_le_r
      (bc * (1 + get inputs "cogs_increase" 0) ^ month r) 0.95) as Hle.
    fold (current_cogs_pct_at bc (get inputs "cogs_increase" 0) (month r)) in Hle.
    rewrite (Qmult_comm (revenue r)).
    apply Qmult_le_compat_r; assumption.
Qed.

Lemma cogs_clamp_witness :
  exists r,
    example_rows !! 1%nat = Some r /\ 0 <= revenue r /\
    cogs r <= 0.95 * revenue r.
Proof.
  eexists. split; [reflexivity|].
  split; [vm_compute; discriminate|].
  apply (proj2 (proj2 cogs_clamp example_inputs 1%Z None example_rows _
                      example_rows_run
                      (list_elem_of_further _ _ _ (list_elem_of_here _ _)))).
  vm_compute. discriminate.
Defined.

(** In exact arithmetic the worked example has the values that the
    specification lists: the rows of months 0 and 1, and in the month-1
    row revenue 110000, cogs 66000, ebit 24000, ar 165000, inventory
    132000, ap 66000, wc 231000, delta_wc 21000, fcf -4000 and
    cash_balance 96000. *)
Lemma worked_example :
  exists r0 r1,
    generate_monthly_projections example_inputs 1 None = Ok [r0; r1] /\
    month r0 = 0%Z /\ month r1 = 1%Z /\
    wc r0 == 210000 /\
    revenue r1 == 110000 /\ cogs r1 == 66000 /\ ebit r1 == 24000 /\
    ar r1 == 165000 /\ inventory r1 == 132000 /\ ap r1 == 66000 /\
    wc r1 == 231000 /\ delta_wc r1 == 21000 /\
    fcf r1 == -4000 /\ cash_balance r1 == 96000.
Proof.
  do 2 eexists. split; [vm_compute; reflexivity|].
  repeat split; vm_compute; reflexivity.
Qed.

Section WorkedExampleBinary64.

Import PrimFloat.

(** C1, as stated, fails on the numbers the program computes with: in
    binary64 [1 + 0.10] is not 1.1 and the month-1 revenue is
    110000.00000000001; the ebit, the fcf and the cash balance of month 1
    differ from 24000, -4000 and 96000 as well. *)
Lemma worked_example_binary64_differs :
  exists r0 r1,
    B64.generate_monthly_projections B64.example_inputs 1 None =
      B64.Returns [r0; r1] /\
    (PrimFloat.eqb (B64.revenue r1) 110000 = false /\
     PrimFloat.eqb (B64.ebit r1) 24000 = false /\
     PrimFloat.eqb (B64.fcf r1) (-4000) = false /\
     PrimFloat.eqb (B64.cash_balance r1) 96000 = false)%float.
Proof.
  do 2 eexists. split; [vm_compute; reflexivity|].
  repeat split; vm_compute; reflexivity.
Qed.

(** C1, amended.  On the inputs of the worked example (no debt, one
    month) the program returns the rows of months 0 and 1; the month-1
    row has cogs 66000, ar 165000, inventory 132000, ap 66000, wc 231000
    and delta_wc 21000 exactly, and revenue 110000.00000000001
    ([0x1.adb0000000001p+16]), ebit 24000.000000000015, fcf
    -3999.9999999999891 and cash_balance 96000.000000000015: the values
    110000, 24000, -4000 and 96000 up to binary64 rounding, each within
    [2^-36], about 1.5e-11. *)
Theorem worked_example_binary64 :
  exists r0 r1,
    B64.generate_monthly_projections B64.example_inputs 1 None =
      B64.Returns [r0; r1] /\
    B64.month r0 = 0%Z /\ B64.month r1 = 1%Z /\
    (B64.cogs r1 = 66000 /\ B64.ar r1 = 165000 /\
     B64.inventory r1 = 132000 /\ B64.ap r1 = 66000 /\
     B64.wc r1 = 231000 /\ B64.delta_wc r1 = 21000)%float /\
    (B64.revenue r1 = 0x1.adb0000000001p+16 /\
     B64.ebit r1 = 0x1.7700000000004p+14 /\
     B64.fcf r1 = - 0x1.f3fffffffffe8p+11 /\
     B64.cash_balance r1 = 0x1.7700000000001p+16)%float /\
    (PrimFloat.leb (PrimFloat.abs (B64.revenue r1 - 110000)) 0x1p-36 = true /\
     PrimFloat.leb (PrimFloat.abs (B64.ebit r1 - 24000)) 0x1p-36 = true /\
     PrimFloat.leb (PrimFloat.abs (B64.fcf r1 - (-4000))) 0x1p-36 = true /\
     PrimFloat.leb (PrimFloat.abs (B64.cash_balance r1 - 96000)) 0x1p-36
       = true)%float.
Proof.
  do 2 eexists. split; [vm_compute; reflexivity|].
  repeat split; vm_compute; reflexivity.
Qed.

End WorkedExampleBinary64.

(** ** Tier-1 liquidity ratios *)

(** C4, as stated, fails: with [ap = 1/2] the divisor of the code is
    [1/2], not [max(1/2, 1) = 1]; the current ratio of [ar = inventory =
    cash_balance = 1] is 6, not 3, and the quick ratio 4, not 2. *)
Lemma tier1_ratio_not_max :
  let t := calculate_tier1_metrics 1 0 1 1 (1 # 2) 1 1 in
  T1.current_ratio t == 6 /\ T1.quick_ratio t == 4 /\
  ~ T1.current_ratio t == (1 + 1 + 1) / py_max (1 # 2) 1 /\
  ~ T1.quick_ratio t == (1 + 1 + 1 - 1) / py_max (1 # 2) 1.
Proof.
  repeat split; vm_compute; congruence.
Qed.

(** C4, amended.  The divisor of both ratios is [ap] when [ap > 0] and 1
    otherwise: it is always positive, it is [max(ap, 1)] whenever [ap <=
    0] or [ap >= 1], and it is [ap] itself for [0 < ap < 1]. *)
Theorem tier1_ratio_guard (revenue ebit ar inventory ap cash_balance opex : Q) :
  let t := calculate_tier1_metrics revenue ebit ar inventory ap cash_balance opex in
  let current_liabilities := if Qltb 0 ap then ap else 1 in
  T1.current_ratio t = (ar + inventory + cash_balance) / current_liabilities /\
  T1.quick_ratio t =
    (ar + inventory + cash_balance - inventory) / current_liabilities /\
  0 < current_liabilities /\
  (ap <= 0 \/ 1 <= ap -> current_liabilities == py_max ap 1) /\
  (0 < ap -> current_liabilities = ap) /\
  (0 < ap < 1 -> ~ current_liabilities == py_max ap 1).
Proof.
  simpl. repeat split.
  - destruct (Qltb 0 ap) eqn:E; [now apply Qltb_true | reflexivity].
  - intros H. unfold py_max.
    destruct (Qltb 0 ap) eqn:E, (Qltb ap 1) eqn:E1; try reflexivity.
    + apply Qltb_true in E, E1. destruct H; lra.
    + apply Qltb_false in E, E1. lra.
  - intros H. apply Qltb_true in H. now rewrite H.
  - intros [H0 H1]. unfold py_max.
    apply Qltb_true in H0 as E0. apply Qltb_true in H1 as E1.
    rewrite E0, E1. lra.
Qed.

Lemma tier1_ratio_guard_witness :
  let t := calculate_tier1_metrics 100 20 150 120 60 100 20 in
  T1.current_ratio t == (150 + 120 + 100) / py_max 60 1 /\
  T1.quick_ratio t == (150 + 120 + 100 - 120) / py_max 60 1.
Proof.
  pose proof (tier1_ratio_guard 100 20 150 120 60 100 20) as H.
  cbv zeta in H. destruct H as (Hc & Hq & _ & Hmax & _ & _).
  intros t. subst t. rewrite Hc, Hq.
  rewrite Hmax by (right; vm_compute; discriminate).
  split; reflexivity.
Defined.

(** ** Zero-interest amortization *)

Lemma inject_Z_pred (m : Z) : inject_Z (m - 1) == inject_Z m - 1.
Proof.
  unfold Z.sub, Qminus. rewrite inject_Z_plus, inject_Z_opp. reflexivity.
Qed.

(** A share [k/t] of a non-negative amount, with [0 <= k <= t], does not
    exceed the amount. *)
Lemma share_le (L t k : Q) :
  0 <= L -> 0 < t -> 0 <= k -> k <= t -> L / t * k <= L.
Proof.
  intros HL Ht Hk Hkt.
  assert (Hs : k / t <= 1).
  { apply Qle_shift_div_r; [assumption|]. now rewrite Qmult_1_l. }
  assert (Hs0 : 0 <= k / t).
  { apply Qle_shift_div_l; [assumption|]. now rewrite Qmult_0_l. }
  assert (E : L / t * k == L * (k / t)) by (field; lra).
  rewrite E. nra.
Qed.

Section ZeroRate.

Variable d : DebtParams.
Hypothesis Hrate : interest_rate d == 0.

(** Within the term a zero-rate loan takes the linear branch. *)
Lemma zero_rate_service (m : Z) :
  (m <= term_months d)%Z ->
  calculate_debt_service (Some d) m =
  Ok (DS.mk 0 (monthly_payment d)
        (py_max 0 (loan_amount d - monthly_payment d * inject_Z (m - 1)))).
Proof.
  intros Hm. unfold calculate_debt_service.
  replace (term_months d <? m)%Z with false by (symmetry; apply Z.ltb_ge; lia).
  replace (term_months d - m + 1 <=? 0)%Z with false
    by (symmetry; apply Z.leb_gt; lia).
  replace (Qeq_bool (interest_rate d / 12) 0) with true; [reflexivity|].
  symmetry. apply Qeq_bool_iff. rewrite Hrate. reflexivity.
Qed.

(** After the term the loan is retired. *)
Lemma service_after_term (m : Z) :
  (term_months d < m)%Z -> calculate_debt_service (Some d) m = Ok DS.zero.
Proof.
  intros Hm. unfold calculate_debt_service.
  replace (term_months d <? m)%Z with true by (symmetry; apply Z.ltb_lt; lia).
  reflexivity.
Qed.

Hypothesis Hpay :
  monthly_payment d == loan_amount d / inject_Z (term_months d).
Hypothesis Hloan : 0 <= loan_amount d.
Hypothesis Hterm : (1 <= term_months d)%Z.

Lemma term_positive : 0 < inject_Z (term_months d).
Proof. change 0 with (inject_Z 0). rewrite <- Zlt_Qlt. lia. Qed.

(** The balance [loan_amount - monthly_payment * (month - 1)] is not
    negative within the term, so [max(0, .)] leaves it as it is. *)
Lemma zero_rate_balance (m : Z) :
  (1 <= m <= term_months d)%Z ->
  py_max 0 (loan_amount d - monthly_payment d * inject_Z (m - 1)) ==
  loan_amount d - monthly_payment d * inject_Z (m - 1).
Proof.
  intros Hm. apply py_max_0_nonneg. rewrite Hpay.
  assert (H : loan_amount d / inject_Z (term_months d) * inject_Z (m - 1)
              <= loan_amount d).
  { apply share_le; [assumption | apply term_positive | |].
    - change 0 with (inject_Z 0). rewrite <- Zle_Qle. lia.
    - rewrite <- Zle_Qle. lia. }
  lra.
Qed.

End ZeroRate.

(** C3, as stated, fails at the last month of the term: for the loan of
    1200 at 0% over 12 months, whose payment is 1200/12 = 100, the balance
    reported for month 12 is 100, not 0. *)
Lemma zero_interest_balance_at_term_not_zero :
  interest_rate example_loan == 0 /\
  monthly_payment example_loan ==
    loan_amount example_loan / inject_Z (term_months example_loan) /\
  exists s,
    calculate_debt_service (Some example_loan) (term_months example_loan) = Ok s /\
    DS.remaining_balance s == 100 /\ ~ DS.remaining_balance s == 0.
Proof.
  split; [reflexivity|]. split; [vm_compute; reflexivity|].
  eexists. split; [vm_compute; reflexivity|].
  split; vm_compute; congruence.
Qed.

(** C3, amended.  For a loan with [interest_rate = 0], [monthly_payment =
    loan_amount / term_months], a non-negative amount and a term of at
    least one month: at each month [m] of [1..term_months] the service is
    no interest, a principal payment of [monthly_payment] and the balance
    [loan_amount - monthly_payment * (m - 1)]; so the balance is the
    whole loan at month 1 and, for a positive loan, it strictly decreases
    from each month to the next and is still positive, not 0, at [month =
    term_months]; it is 0 at every later month. *)
Theorem zero_interest_amortization (d : DebtParams) :
  interest_rate d == 0 ->
  monthly_payment d == loan_amount d / inject_Z (term_months d) ->
  0 <= loan_amount d ->
  (1 <= term_months d)%Z ->
  (forall m : Z, (1 <= m <= term_months d)%Z ->
     exists s, calculate_debt_service (Some d) m = Ok s /\
       DS.interest_expense s = 0 /\
       DS.principal_payment s = monthly_payment d /\
       DS.remaining_balance s ==
         loan_amount d - monthly_payment d * inject_Z (m - 1)) /\
  (exists s, calculate_debt_service (Some d) 1 = Ok s /\
     DS.remaining_balance s == loan_amount d) /\
  (0 < loan_amount d ->
   forall m : Z, (1 <= m < term_months d)%Z ->
     exists s s',
       calculate_debt_service (Some d) m = Ok s /\
       calculate_debt_service (Some d) (m + 1) = Ok s' /\
       DS.remaining_balance s' < DS.remaining_balance s) /\
  (0 < loan_amount d ->
   exists s, calculate_debt_service (Some d) (term_months d) = Ok s /\
     0 < DS.remaining_balance s) /\
  (forall m : Z, (term_months d < m)%Z ->
     exists s, calculate_debt_service (Some d) m = Ok s /\
       DS.remaining_balance s = 0).
Proof.
  intros Hrate Hpay Hloan Hterm.
  pose proof (term_positive d Hterm) as HT.
  assert (Hpos : 0 < loan_amount d -> 0 < monthly_payment d).
  { intros HL. rewrite Hpay. apply Qlt_shift_div_l; [assumption|]. lra. }
  repeat apply conj.
  - intros m Hm. eexists. split; [apply zero_rate_service; [assumption|lia]|].
    cbn [DS.interest_expense DS.principal_payment DS.remaining_balance].
    repeat split. now apply zero_rate_balance.
  - eexists. split; [apply zero_rate_service; [assumption|lia]|].
    cbn [DS.remaining_balance].
    rewrite zero_rate_balance by (assumption || lia).
    change (inject_Z (1 - 1)) with 0. ring.
  - intros HL m Hm. do 2 eexists.
    split; [apply zero_rate_service; [assumption|lia]|].
    split; [apply zero_rate_service; [assumption|lia]|].
    cbn [DS.remaining_balance].
    rewrite !zero_rate_balance by (assumption || lia).
    replace (m + 1 - 1)%Z with m by lia. rewrite (inject_Z_pred m).
    pose proof (Hpos HL). lra.
  - intros HL. eexists. split; [apply zero_rate_service; [assumption|lia]|].
    cbn [DS.remaining_balance].
    rewrite zero_rate_balance by (assumption || lia).
    assert (E : loan_amount d
                - monthly_payment d * inject_Z (term_months d - 1)
                == monthly_payment d).
    { rewrite inject_Z_pred, Hpay. field. lra. }
    rewrite E. now apply Hpos.
  - intros m Hm. exists DS.zero. split; [now apply service_after_term|].
    reflexivity.
Qed.

Lemma zero_interest_amortization_witness :
  (forall m : Z, (1 <= m <= term_months example_loan)%Z ->
     exists s, calculate_debt_service (Some example_loan) m = Ok s /\
       DS.interest_expense s = 0 /\
       DS.principal_payment s = monthly_payment example_loan /\
       DS.remaining_balance s ==
         loan_amount example_loan -
         monthly_payment example_loan * inject_Z (m - 1)) /\
  (exists s, calculate_debt_service (Some example_loan) 1 = Ok s /\
     DS.remaining_balance s == loan_amount example_loan) /\
  (0 < loan_amount example_loan ->
   forall m : Z, (1 <= m < term_months example_loan)%Z ->
     exists s s',
       calculate_debt_service (Some example_loan) m = Ok s /\
       calculate_debt_service (Some example_loan) (m + 1) = Ok s' /\
       DS.remaining_balance s' < DS.remaining_balance s) /\
  (0 < loan_amount example_loan ->
   exists s,
     calculate_debt_service (Some example_loan) (term_months example_loan) = Ok s /\
     0 < DS.remaining_balance s) /\
  (forall m : Z, (term_months example_loan < m)%Z ->
     exists s, calculate_debt_service (Some example_loan) m = Ok s /\
       DS.remaining_balance s = 0).
Proof.
  apply (zero_interest_amortization example_loan).
  - reflexivity.
  - vm_compute. reflexivity.
  - vm_compute. discriminate.
  - vm_compute. discriminate.
Defined.

(** ** Scenario adjustments applied twice *)

Section Scenario.

Variable base : gmap string Q.
Variables a p i : Q.
Hypothesis Har : base !! "ar_days"%string = Some a.
Hypothesis Hap : base !! "ap_days"%string = Some p.
Hypothesis Hinv : base !! "inventory_days"%string = Some i.

Lemma apply_conservative :
  apply_scenario_adjustments base "conservative" =
  Ok (<["inventory_days"%string := i * 1.15]>
        (<["ap_days"%string := py_max 0 (p - 5)]>
           (<["ar_days"%string := a + 10]> base))).
Proof.
  unfold apply_scenario_adjustments.
  change (String.eqb "conservative" "base") with false.
  change (String.eqb "conservative" "conservative") with true.
  cbv iota.
  rewrite (getitem_Some _ _ _ Har), (getitem_Some _ _ _ Hap),
          (getitem_Some _ _ _ Hinv).
  reflexivity.
Qed.

Lemma apply_aggressive :
  apply_scenario_adjustments base "aggressive" =
  Ok (<["inventory_days"%string := i * 0.85]>
        (<["ap_days"%string := p + 10]>
           (<["ar_days"%string := py_max 0 (a - 10)]> base))).
Proof.
  unfold apply_scenario_adjustments.
  change (String.eqb "aggressive" "base") with false.
  change (String.eqb "aggressive" "conservative") with false.
  change (String.eqb "aggressive" "aggressive") with true.
  cbv iota.
  rewrite (getitem_Some _ _ _ Har), (getitem_Some _ _ _ Hap),
          (getitem_Some _ _ _ Hinv).
  reflexivity.
Qed.

End Scenario.

(** C9.  Re-application compounds: for every base record that carries the
    three day terms, adjusting the already adjusted record once more with
    the same kind gives another record: [conservative] twice has added 20
    to [ar_days] where once adds 10, and [aggressive] twice has added 20
    to [ap_days] where once adds 10.  The adjustment is not idempotent. *)
Theorem scenario_reapply_compounds (base : gmap string Q) (a p i : Q) :
  base !! "ar_days"%string = Some a ->
  base !! "ap_days"%string = Some p ->
  base !! "inventory_days"%string = Some i ->
  (exists once twice,
     apply_scenario_adjustments base "conservative" = Ok once /\
     apply_scenario_adjustments once "conservative" = Ok twice /\
     once !! "ar_days"%string = Some (a + 10) /\
     twice !! "ar_days"%string = Some (a + 10 + 10) /\
     ~ a + 10 + 10 == a + 10 /\ once <> twice) /\
  (exists once twice,
     apply_scenario_adjustments base "aggressive" = Ok once /\
     apply_scenario_adjustments once "aggressive" = Ok twice /\
     once !! "ap_days"%string = Some (p + 10) /\
     twice !! "ap_days"%string = Some (p + 10 + 10) /\
     ~ p + 10 + 10 == p + 10 /\ once <> twice).
Proof.
  intros Har Hap Hinv.
  assert (Hne : forall x : Q, ~ x + 10 + 10 == x + 10) by (intros x H; lra).
  split.
  - pose proof (apply_conservative base a p i Har Hap Hinv) as H1.
    set (once := <["inventory_days"%string := i * 1.15]>
                   (<["ap_days"%string := py_max 0 (p - 5)]>
                      (<["ar_days"%string := a + 10]> base))) in H1.
    assert (L1 : once !! "ar_days"%string = Some (a + 10))
      by (subst once; by simplify_map_eq).
    assert (L2 : once !! "ap_days"%string = Some (py_max 0 (p - 5)))
      by (subst once; by simplify_map_eq).
    assert (L3 : once !! "inventory_days"%string = Some (i * 1.15))
      by (subst once; by simplify_map_eq).
    pose proof (apply_conservative once _ _ _ L1 L2 L3) as H2.
    eexists once, _. split; [exact H1|]. split; [exact H2|].
    assert (L4 : forall m : gmap string Q,
              <["inventory_days"%string := i * 1.15 * 1.15]>
                (<["ap_days"%string := py_max 0 (py_max 0 (p - 5) - 5)]>
                   (<["ar_days"%string := a + 10 + 10]> m))
              !! "ar_days"%string = Some (a + 10 + 10))
      by (intros m; by simplify_map_eq).
    split; [exact L1|]. split; [apply L4|]. split; [apply Hne|].
    intros E. rewrite E, L4 in L1.
    apply (Hne a). assert (E' : a + 10 + 10 = a + 10) by congruence.
    now rewrite E'.
  - pose proof (apply_aggressive base a p i Har Hap Hinv) as H1.
    set (once := <["inventory_days"%string := i * 0.85]>
                   (<["ap_days"%string := p + 10]>
                      (<["ar_days"%string := py_max 0 (a - 10)]> base))) in H1.
    assert (L1 : once !! "ar_days"%string = Some (py_max 0 (a - 10)))
      by (subst once; by simplify_map_eq).
    assert (L2 : once !! "ap_days"%string = Some (p + 10))
      by (subst once; by simplify_map_eq).
    assert (L3 : once !! "inventory_days"%string = Some (i * 0.85))
      by (subst once; by simplify_map_eq).
    pose proof (apply_aggressive once _ _ _ L1 L2 L3) as H2.
    eexists once, _. split; [exact H1|]. split; [exact H2|].
    assert (L4 : forall m : gmap string Q,
              <["inventory_days"%string := i * 0.85 * 0.85]>
                (<["ap_days"%string := p + 10 + 10]>
                   (<["ar_days"%string := py_max 0 (py_max 0 (a - 10) - 10)]> m))
              !! "ap_days"%string = Some (p + 10 + 10))
      by (intros m; by simplify_map_eq).
    split; [exact L2|]. split; [apply L4|]. split; [apply Hne|].
    intros E. rewrite E, L4 in L2.
    apply (Hne p). assert (E' : p + 10 + 10 = p + 10) by congruence.
    now rewrite E'.
Qed.

Lemma scenario_reapply_compounds_witness :
  (exists once twice,
     apply_scenario_adjustments example_inputs "conservative" = Ok once /\
     apply_scenario_adjustments once "conservative" = Ok twice /\
     once !! "ar_days"%string = Some (45 + 10) /\
     twice !! "ar_days"%string = Some (45 + 10 + 10) /\
     ~ 45 + 10 + 10 == 45 + 10 /\ once <> twice) /\
  (exists once twice,
     apply_scenario_adjustments example_inputs "aggressive" = Ok once /\
     apply_scenario_adjustments once "aggressive" = Ok twice /\
     once !! "ap_days"%string = Some (30 + 10) /\
     twice !! "ap_days"%string = Some (30 + 10 + 10) /\
     ~ 30 + 10 + 10 == 30 + 10 /\ once <> twice).
Proof.
  apply (scenario_reapply_compounds example_inputs 45 30 60).
  - vm_compute. reflexivity.
  - vm_compute. reflexivity.
  - vm_compute. reflexivity.
Defined.

(** ** Optional keys *)

(** C10.  Implicit default: when the input record omits one of the keys
    [price_increase], [cogs_increase], [opex_increase], [opening_cash],
    the engine produces the same outcome (the same table, or the same
    exception) as on the record with that key present with value 0. *)
Theorem missing_key_defaults_to_zero (inputs : gmap string Q) (k : string)
    (N : Z) (debt_params : option DebtParams) :
  k ∈ optional_keys ->
  inputs !! k = None ->
  generate_monthly_projections inputs N debt_params =
  generate_monthly_projections (<[k := 0]> inputs) N debt_params.
Proof.
  intros Hk Hnone.
  assert (Hreq : forall k', k' ∈ required_keys -> k <> k').
  { intros k' Hk' ->. revert Hk Hk'. unfold optional_keys, required_keys.
    rewrite !elem_of_cons, !elem_of_nil. intros Ho Hr.
    repeat (destruct Ho as [->|Ho]); try (exfalso; exact Ho);
      repeat (destruct Hr as [Hr|Hr]); try discriminate Hr; exact Hr. }
  assert (Hbody : forall br pi bc ci bo oi st m,
    month_body (<[k := 0]> inputs) debt_params br pi bc ci bo oi st m =
    month_body inputs debt_params br pi bc ci bo oi st m).
  { intros. apply month_body_insert. intros Hin.
    revert Hk Hin. unfold optional_keys.
    rewrite !elem_of_cons, !elem_of_nil. intros Ho Hr.
    repeat (destruct Ho as [->|Ho]); try (exfalso; exact Ho);
      repeat (destruct Hr as [Hr|Hr]); try discriminate Hr; exact Hr. }
  unfold generate_monthly_projections.
  rewrite !(get_insert_default inputs k) by exact Hnone.
  repeat match goal with
  | |- context [getitem (<[k := 0]> inputs) ?k'] =>
      rewrite (getitem_insert_ne inputs k k' 0)
        by (apply Hreq; unfold required_keys;
            repeat first [apply list_elem_of_here | apply list_elem_of_further]);
      destruct (getitem inputs k'); simpl; [|reflexivity]
  end.
  erewrite for_each_ext; [reflexivity|].
  intros st m. symmetry. apply Hbody.
Qed.

Lemma missing_key_defaults_to_zero_witness :
  generate_monthly_projections example_inputs 1 None =
  generate_monthly_projections (<["cogs_increase"%string := 0]> example_inputs)
                               1 None.
Proof.
  apply (missing_key_defaults_to_zero example_inputs "cogs_increase").
  - unfold optional_keys. apply list_elem_of_further, list_elem_of_here.
  - vm_compute. reflexivity.
Defined.

(** * Further properties of the code *)

(** ** The loop body, field by field *)

Section BodyFields.

Variable inputs : gmap string Q.
Variable debt_params : option DebtParams.
Variables base_revenue price_increase : Q.
Variables base_cogs_pct cogs_increase : Q.
Variables base_opex opex_increase : Q.

Local Abbreviation body :=
  (month_body inputs debt_params base_revenue price_increase
              base_cogs_pct cogs_increase base_opex opex_increase).

Local Abbreviation facts :=
  (row_facts inputs debt_params base_revenue price_increase
             base_cogs_pct cogs_increase base_opex opex_increase).

Lemma month_body_facts (st st' : loop_state) (m : Z) :
  body st m = Ok st' -> exists r, facts st m r st'.
Proof.
  intros H.
  destruct (month_body_emits _ _ _ _ _ _ _ _ _ _ _ H) as (r0 & He & _).
  pose proof (emits_results _ _ _ _ _ _ _ He) as Hres0.
  unfold month_body in H.
  apply rbind_Ok in H as (ds & Hds & H).
  apply rbind_Ok in H as (tax & _ & H).
  apply rbind_Ok in H as (ard & Hard & H). apply getitem_Ok in Hard.
  apply rbind_Ok in H as (apd & Hapd & H). apply getitem_Ok in Hapd.
  apply rbind_Ok in H as (ind & Hind & H). apply getitem_Ok in Hind.
  destruct (m =? 0)%Z eqn:Em;
    apply rbind_Ok in H as (dep & _ & H);
    apply rbind_Ok in H as (cap & _ & H);
    injection H as <-; simpl in Hres0;
    apply app_inv_head in Hres0; injection Hres0 as <-;
    eexists; split; try exact He; simpl; try reflexivity;
    try (exists ds; repeat split; exact Hds);
    try (exists ard, apd, ind; repeat split; assumption);
    try (repeat split; reflexivity).
  intros Hm. apply Z.eqb_eq in Em. contradiction.
Qed.

Lemma for_each_facts (ms : list Z) (st st' : loop_state) :
  for_each body ms st = Ok st' ->
  exists rs, rows_from facts st ms rs st'.
Proof.
  revert st. induction ms as [|m ms IH]; intros st; simpl.
  - intros [= <-]. exists []. constructor.
  - intros H. apply rbind_Ok in H as (st1 & H1 & H).
    apply month_body_facts in H1 as (r & Hr).
    apply IH in H as (rs & Hrs).
    exists (r :: rs). econstructor; eassumption.
Qed.

End BodyFields.

(** ** Runs of rows, for any step relation *)

Section RowsGeneric.

Variable R : loop_state -> Z -> MonthRecord -> loop_state -> Prop.

Lemma rows_from_length st ms rs st' :
  rows_from R st ms rs st' -> length rs = length ms.
Proof. induction 1; simpl; congruence. Qed.

(** The row at an index was emitted for the month at that index. *)
Lemma rows_from_lookup st ms rs st' (i : nat) (r : MonthRecord) :
  rows_from R st ms rs st' -> rs !! i = Some r ->
  exists s s' m, ms !! i = Some m /\ R s m r s'.
Proof.
  intros H. revert i. induction H as [st|st m r0 st1 ms rs st' Hr _ IH];
    intros i Hi.
  - discriminate.
  - destruct i as [|i]; simpl in Hi.
    + injection Hi as ->. exists st, st1, m. split; [reflexivity|assumption].
    + destruct (IH i Hi) as (s & s' & m' & Hm & HR). exists s, s', m'.
      split; assumption.
Qed.

(** Two consecutive rows were emitted by two consecutive iterations: the
    state the first one left is the state the second one found. *)
Lemma rows_from_lookup_next st ms rs st' (i : nat) (p r : MonthRecord) :
  rows_from R st ms rs st' -> rs !! i = Some p -> rs !! S i = Some r ->
  exists s1 s2 s3 m1 m2,
    ms !! i = Some m1 /\ ms !! S i = Some m2 /\ R s1 m1 p s2 /\ R s2 m2 r s3.
Proof.
  intros H. revert i. induction H as [st|st m r0 st1 ms rs st' Hr Hrest IH];
    intros i Hp Hn.
  - discriminate.
  - destruct i as [|i]; simpl in Hp, Hn.
    + injection Hp as ->.
      destruct Hrest as [|st1 m1 r1 st2 ms rs st' Hr1 _]; [discriminate|].
      simpl in Hn. injection Hn as ->.
      exists st, st1, st2, m, m1. repeat split; assumption.
    + destruct (IH i Hp Hn) as (s1 & s2 & s3 & m1 & m2 & H1 & H2 & H3 & H4).
      exists s1, s2, s3, m1, m2. repeat split; assumption.
Qed.

(** A run along [ms1 ++ ms2] is a run along [ms1] followed by one along
    [ms2]. *)
Lemma rows_from_app st ms1 ms2 rs st' :
  rows_from R st (ms1 ++ ms2) rs st' ->
  exists rs1 rs2 s,
    rs = rs1 ++ rs2 /\ rows_from R st ms1 rs1 s /\ rows_from R s ms2 rs2 st'.
Proof.
  revert st rs. induction ms1 as [|m ms1 IH]; intros st rs H; simpl in H.
  - exists [], rs, st. repeat split; [constructor | assumption].
  - inversion H as [|s m' r s1 ms' rs' s' Hr Hrest]; subst.
    destruct (IH _ _ Hrest) as (rs1 & rs2 & s & -> & H1 & H2).
    exists (r :: rs1), rs2, s. repeat split; [|assumption].
    econstructor; eassumption.
Qed.

End RowsGeneric.

Lemma rows_facts_results inputs debt_params br pi bc ci bo oi st ms rs st' :
  rows_from (row_facts inputs debt_params br pi bc ci bo oi) st ms rs st' ->
  results st' = results st ++ rs.
Proof.
  induction 1 as [st|st m r st1 ms rs st' Hr _ IH].
  - now rewrite app_nil_r.
  - rewrite IH, (emits_results _ _ _ _ _ _ _ (rf_emits _ _ _ _ _ _ _ _ _ _ _ _ Hr)),
      <- app_assoc. reflexivity.
Qed.

(** ** The engine, field by field *)

(** A returned table is the run of fully described rows from a state
    whose cash balance is the opening cash, along the months [0..N]. *)
Lemma projection_full (inputs : gmap string Q) (N : Z)
    (debt_params : option DebtParams) (rs : list MonthRecord) :
  generate_monthly_projections inputs N debt_params = Ok rs ->
  exists base_revenue base_cogs_pct base_opex st0 st',
    inputs !! "revenue"%string = Some base_revenue /\
    inputs !! "cogs_pct"%string = Some base_cogs_pct /\
    inputs !! "opex"%string = Some base_opex /\
    st_cash_balance st0 = get inputs "opening_cash" 0 /\
    rows_from
      (row_facts inputs debt_params
         base_revenue (get inputs "price_increase" 0)
         base_cogs_pct (get inputs "cogs_increase" 0)
         base_opex (get inputs "opex_increase" 0))
      st0 (seqZ 0 (N + 1)) rs st'.
Proof.
  unfold generate_monthly_projections. intros H.
  apply rbind_Ok in H as (br & Hbr & H).
  apply rbind_Ok in H as (bc & Hbc & H).
  apply rbind_Ok in H as (bo & Hbo & H).
  apply rbind_Ok in H as (ard & _ & H).
  apply rbind_Ok in H as (apd & _ & H).
  apply rbind_Ok in H as (ind & _ & H).
  apply rbind_Ok in H as (st' & Hloop & H).
  injection H as <-.
  apply getitem_Ok in Hbr. apply getitem_Ok in Hbc. apply getitem_Ok in Hbo.
  apply for_each_facts in Hloop as (rs & Hrs).
  pose proof (rows_facts_results _ _ _ _ _ _ _ _ _ _ _ _ Hrs) as Hres.
  simpl in Hres. rewrite Hres.
  eexists br, bc, bo, _, st'. repeat split; try eassumption. reflexivity.
Qed.

(** The row at index [i] of a returned table is the row of month [i]. *)
Lemma projection_row (inputs : gmap string Q) (N : Z)
    (debt_params : option DebtParams) (rs : list MonthRecord)
    (i : nat) (r : MonthRecord) :
  generate_monthly_projections inputs N debt_params = Ok rs ->
  rs !! i = Some r ->
  exists base_revenue base_cogs_pct base_opex s s',
    inputs !! "revenue"%string = Some base_revenue /\
    inputs !! "cogs_pct"%string = Some base_cogs_pct /\
    inputs !! "opex"%string = Some base_opex /\
    (Z.of_nat i <= N)%Z /\
    row_facts inputs debt_params
      base_revenue (get inputs "price_increase" 0)
      base_cogs_pct (get inputs "cogs_increase" 0)
      base_opex (get inputs "opex_increase" 0)
      s (Z.of_nat i) r s'.
Proof.
  intros Hrun Hi.
  apply projection_full in Hrun
    as (br & bc & bo & st0 & st' & Hbr & Hbc & Hbo & _ & Hrows).
  destruct (rows_from_lookup _ _ _ _ _ _ _ Hrows Hi) as (s & s' & m & Hm & HR).
  apply lookup_seqZ in Hm as [-> Hlt].
  change (0 + Z.of_nat i)%Z with (Z.of_nat i) in HR.
  exists br, bc, bo, s, s'.
  do 4 (split; [first [assumption | lia]|]). exact HR.
Qed.

Lemma row_month_index (inputs : gmap string Q) (N : Z)
    (debt_params : option DebtParams) (rs : list MonthRecord) (r : MonthRecord) :
  generate_monthly_projections inputs N debt_params = Ok rs ->
  r ∈ rs -> exists i : nat, rs !! i = Some r /\ month r = Z.of_nat i.
Proof.
  intros Hrun Hin. apply list_elem_of_lookup in Hin as (i & Hi).
  exists i. split; [assumption|].
  destruct (projection_row _ _ _ _ _ _ Hrun Hi)
    as (br & bc & bo & s & s' & _ & _ & _ & _ & HR).
  exact (emits_month _ _ _ _ _ _ _ (rf_emits _ _ _ _ _ _ _ _ _ _ _ _ HR)).
Qed.

(** ** Working capital in the table *)

(** X1.  Working-capital fields of a row: in every row of a returned
    table [ar = revenue/30 * ar_days], [inventory = cogs/30 *
    inventory_days], [ap = cogs/30 * ap_days], [wc = ar + inventory - ap],
    and [ccc = ar_days + inventory_days - ap_days], the same in all rows. *)
Theorem row_working_capital (inputs : gmap string Q) (N : Z)
    (debt_params : option DebtParams) (rs : list MonthRecord) (r : MonthRecord) :
  generate_monthly_projections inputs N debt_params = Ok rs ->
  r ∈ rs ->
  exists ar_days ap_days inventory_days,
    inputs !! "ar_days"%string = Some ar_days /\
    inputs !! "ap_days"%string = Some ap_days /\
    inputs !! "inventory_days"%string = Some inventory_days /\
    ar r = revenue r / 30 * ar_days /\
    inventory r = cogs r / 30 * inventory_days /\
    ap r = cogs r / 30 * ap_days /\
    wc r = ar r + inventory r - ap r /\
    ccc r = ar_days + inventory_days - ap_days.
Proof.
  intros Hrun Hin. apply list_elem_of_lookup in Hin as (i & Hi).
  destruct (projection_row _ _ _ _ _ _ Hrun Hi)
    as (br & bc & bo & s & s' & _ & _ & _ & _ & HR).
  destruct (rf_days _ _ _ _ _ _ _ _ _ _ _ _ HR)
    as (ard & apd & ind & H1 & H2 & H3 & H4 & H5 & H6 & H7).
  exists ard, apd, ind. repeat split; try assumption.
  exact (rf_wc _ _ _ _ _ _ _ _ _ _ _ _ HR).
Qed.

Lemma row_working_capital_witness :
  exists r, example_rows !! 1%nat = Some r /\
  exists ar_days ap_days inventory_days,
    example_inputs !! "ar_days"%string = Some ar_days /\
    example_inputs !! "ap_days"%string = Some ap_days /\
    example_inputs !! "inventory_days"%string = Some inventory_days /\
    ar r = revenue r / 30 * ar_days /\
    inventory r = cogs r / 30 * inventory_days /\
    ap r = cogs r / 30 * ap_days /\
    wc r = ar r + inventory r - ap r /\
    ccc r = ar_days + inventory_days - ap_days.
Proof.
  eexists. split; [reflexivity|].
  apply (row_working_capital example_inputs 1%Z None example_rows).
  - exact example_rows_run.
  - unfold example_rows. apply list_elem_of_further, list_elem_of_here.
Defined.

(** X2.  Month-over-month deltas: for two consecutive rows of a returned
    table, the later row's [delta_wc], [delta_ar], [delta_inventory] and
    [delta_ap] are the differences of its [wc], [ar], [inventory] and [ap]
    with the earlier row's. *)
Theorem deltas_month_over_month (inputs : gmap string Q) (N : Z)
    (debt_params : option DebtParams) (rs : list MonthRecord)
    (i : nat) (p r : MonthRecord) :
  generate_monthly_projections inputs N debt_params = Ok rs ->
  rs !! i = Some p -> rs !! S i = Some r ->
  delta_wc r = wc r - wc p /\
  delta_ar r = ar r - ar p /\
  delta_inventory r = inventory r - inventory p /\
  delta_ap r = ap r - ap p.
Proof.
  intros Hrun Hp Hr.
  apply projection_full in Hrun
    as (br & bc & bo & st0 & st' & _ & _ & _ & _ & Hrows).
  destruct (rows_from_lookup_next _ _ _ _ _ _ _ _ Hrows Hp Hr)
    as (s1 & s2 & s3 & m1 & m2 & _ & Hm2 & Hfp & Hfr).
  apply lookup_seqZ in Hm2 as [-> _].
  destruct (rf_previous _ _ _ _ _ _ _ _ _ _ _ _ Hfp) as (Ew & Ea & Ei & Ep).
  destruct (rf_delta _ _ _ _ _ _ _ _ _ _ _ _ Hfr) as (Dw & Da & Di & Dp); [lia|].
  rewrite Dw, Da, Di, Dp, Ew, Ea, Ei, Ep. repeat split.
Qed.

Lemma deltas_month_over_month_witness :
  exists p r, example_rows !! 0%nat = Some p /\ example_rows !! 1%nat = Some r /\
    delta_wc r = wc r - wc p /\
    delta_ar r = ar r - ar p /\
    delta_inventory r = inventory r - inventory p /\
    delta_ap r = ap r - ap p.
Proof.
  do 2 eexists. split; [reflexivity|]. split; [reflexivity|].
  apply (deltas_month_over_month example_inputs 1%Z None example_rows 0%nat).
  - exact example_rows_run.
  - reflexivity.
  - reflexivity.
Defined.

(** ** Cash and debt in the table *)

Section CashFold.

Variable inputs : gmap string Q.
Variable debt_params : option DebtParams.
Variables br pi bc ci bo oi : Q.

Local Abbreviation facts := (row_facts inputs debt_params br pi bc ci bo oi).

(** Along positive months the carried cash balance accumulates the
    rows' [fcf_after_debt], in order. *)
Lemma rows_cash_fold st ms rs st' :
  rows_from facts st ms rs st' ->
  Forall (fun m => 0 < m)%Z ms ->
  st_cash_balance st' =
  fold_left Qplus (map fcf_after_debt rs) (st_cash_balance st).
Proof.
  induction 1 as [st|st m r st1 ms rs st' Hr _ IH]; intros Hpos.
  - reflexivity.
  - apply Forall_cons in Hpos as [Hm Hpos].
    pose proof (rf_emits _ _ _ _ _ _ _ _ _ _ _ _ Hr) as He.
    rewrite (IH Hpos), (emits_carry _ _ _ _ _ _ _ He),
      (emits_cash _ _ _ _ _ _ _ He).
    apply Z.ltb_lt in Hm. rewrite Hm. reflexivity.
Qed.

(** The carried cash balance after a run is the last row's. *)
Lemma rows_last_cash st ms rs st' r :
  rows_from facts st ms rs st' -> last rs = Some r ->
  cash_balance r = st_cash_balance st'.
Proof.
  induction 1 as [st|st m r0 st1 ms rs st' Hr Hrest IH]; intros Hl.
  - discriminate.
  - destruct Hrest as [st1|st1 m1 r1 st2 ms rs st' Hr1 Hrest].
    + simpl in Hl. injection Hl as ->.
      symmetry. exact (emits_carry _ _ _ _ _ _ _ (rf_emits _ _ _ _ _ _ _ _ _ _ _ _ Hr)).
    + apply IH. exact Hl.
Qed.

End CashFold.

(** X4.  Final cash: in a returned table of [N >= 0] months the last
    row's [cash_balance] is the opening cash plus the [fcf_after_debt] of
    the rows of months 1..N, accumulated in order; the month-0 row's cash
    flow is not counted. *)
Theorem final_cash_accumulates (inputs : gmap string Q) (N : Z)
    (debt_params : option DebtParams) (rs : list MonthRecord) :
  generate_monthly_projections inputs N debt_params = Ok rs ->
  (0 <= N)%Z ->
  exists r0 rest rN,
    rs = r0 :: rest /\ last rs = Some rN /\
    cash_balance rN =
    fold_left Qplus (map fcf_after_debt rest) (get inputs "opening_cash" 0).
Proof.
  intros Hrun HN.
  apply projection_full in Hrun
    as (br & bc & bo & st0 & st' & _ & _ & _ & Hcash & Hrows).
  pose proof Hrows as Hall.
  rewrite seqZ_cons in Hrows by lia.
  inversion Hrows as [|s m r0 st1 ms rest s' Hr0 Hrest]; subst.
  pose proof (rf_emits _ _ _ _ _ _ _ _ _ _ _ _ Hr0) as He.
  assert (Hl : is_Some (last (r0 :: rest))).
  { rewrite last_is_Some. discriminate. }
  destruct Hl as [rN HrN].
  exists r0, rest, rN. split; [reflexivity|]. split; [exact HrN|].
  rewrite (rows_last_cash _ _ _ _ _ _ _ _ _ _ _ _ _ Hall HrN).
  rewrite (rows_cash_fold _ _ _ _ _ _ _ _ _ _ _ _ Hrest).
  - rewrite (emits_carry _ _ _ _ _ _ _ He), (emits_cash _ _ _ _ _ _ _ He).
    simpl. now rewrite Hcash.
  - apply Forall_forall. intros m Hm. apply elem_of_seqZ in Hm. lia.
Qed.

Lemma final_cash_accumulates_witness :
  exists r0 rest rN,
    example_rows = r0 :: rest /\ last example_rows = Some rN /\
    cash_balance rN =
    fold_left Qplus (map fcf_after_debt rest)
              (get example_inputs "opening_cash" 0).
Proof.
  apply (final_cash_accumulates example_inputs 1%Z None example_rows).
  - exact example_rows_run.
  - lia.
Defined.

(** X5.  No debt: with [debt_params = None] every row of a returned table
    has [interest_expense], [principal_payment], [debt_balance] and [dscr]
    equal to 0, so that [ebit_after_interest] is [ebit] and
    [fcf_after_debt] is [fcf]. *)
Theorem no_debt_rows (inputs : gmap string Q) (N : Z)
    (rs : list MonthRecord) (r : MonthRecord) :
  generate_monthly_projections inputs N None = Ok rs ->
  r ∈ rs ->
  interest_expense r = 0 /\ principal_payment r = 0 /\
  debt_balance r = 0 /\ dscr r = 0 /\
  ebit_after_interest r == ebit r /\ fcf_after_debt r == fcf r.
Proof.
  intros Hrun Hin. apply list_elem_of_lookup in Hin as (i & Hi).
  destruct (projection_row _ _ _ _ _ _ Hrun Hi)
    as (br & bc & bo & s & s' & _ & _ & _ & _ & HR).
  destruct (rf_service _ _ _ _ _ _ _ _ _ _ _ _ HR) as (ds & Hds & Ei & Ep & Eb).
  pose proof (rf_dscr _ _ _ _ _ _ _ _ _ _ _ _ HR) as Ed.
  assert (Hz : ds = DS.zero).
  { unfold debt_service_at in Hds. destruct (0 <? Z.of_nat i)%Z;
      simpl in Hds; now injection Hds. }
  subst ds. simpl in Ei, Ep, Eb.
  do 4 (split; [assumption|]).
  rewrite (rf_ebit_after_interest _ _ _ _ _ _ _ _ _ _ _ _ HR),
    (rf_fcf_after_debt _ _ _ _ _ _ _ _ _ _ _ _ HR), Ei, Ep.
  split; ring.
Qed.

Lemma no_debt_rows_witness :
  exists r, example_rows !! 1%nat = Some r /\
    interest_expense r = 0 /\ principal_payment r = 0 /\
    debt_balance r = 0 /\ dscr r = 0 /\
    ebit_after_interest r == ebit r /\ fcf_after_debt r == fcf r.
Proof.
  eexists. split; [reflexivity|].
  apply (no_debt_rows example_inputs 1%Z example_rows).
  - exact example_rows_run.
  - unfold example_rows. apply list_elem_of_further, list_elem_of_here.
Defined.

Lemma debt_rows_run :
  generate_monthly_projections example_inputs 2 (Some short_loan) = Ok debt_rows.
Proof. vm_compute. reflexivity. Defined.

(** After the term, and without a loan, the service is all zero. *)
Lemma debt_service_retired (debt_params : option DebtParams) (m : Z) :
  match debt_params with
  | None => True
  | Some d => (term_months d < m)%Z
  end ->
  calculate_debt_service debt_params m = Ok DS.zero.
Proof.
  destruct debt_params as [d|]; [|reflexivity].
  intros Hm. unfold calculate_debt_service.
  replace (term_months d <? m)%Z with true by (symmetry; apply Z.ltb_lt; lia).
  reflexivity.
Qed.

(** X7.  Rows after the term: with a loan of non-negative term, every
    row of a month later than the term has [interest_expense],
    [principal_payment], [debt_balance] and [dscr] equal to 0. *)
Theorem after_term_rows (inputs : gmap string Q) (N : Z) (d : DebtParams)
    (rs : list MonthRecord) (r : MonthRecord) :
  generate_monthly_projections inputs N (Some d) = Ok rs ->
  r ∈ rs ->
  (0 <= term_months d)%Z -> (term_months d < month r)%Z ->
  interest_expense r = 0 /\ principal_payment r = 0 /\
  debt_balance r = 0 /\ dscr r = 0.
Proof.
  intros Hrun Hin HT Hm.
  destruct (row_month_index _ _ _ _ _ Hrun Hin) as (i & Hi & Emi).
  destruct (projection_row _ _ _ _ _ _ Hrun Hi)
    as (br & bc & bo & s & s' & _ & _ & _ & _ & HR).
  destruct (rf_service _ _ _ _ _ _ _ _ _ _ _ _ HR) as (ds & Hds & Ei & Ep & Eb).
  pose proof (rf_dscr _ _ _ _ _ _ _ _ _ _ _ _ HR) as Ed.
  rewrite <- Emi in Hds.
  unfold debt_service_at in Hds.
  replace (0 <? month r)%Z with true in Hds by (symmetry; apply Z.ltb_lt; lia).
  rewrite (debt_service_retired (Some d) (month r) Hm) in Hds.
  injection Hds as <-. simpl in Ei, Ep, Eb.
  rewrite Ei, Ep, andb_false_r in Ed.
  repeat split; assumption.
Qed.

Lemma after_term_rows_witness :
  exists r, debt_rows !! 2%nat = Some r /\
    interest_expense r = 0 /\ principal_payment r = 0 /\
    debt_balance r = 0 /\ dscr r = 0.
Proof.
  eexists. split; [reflexivity|].
  apply (after_term_rows example_inputs 2%Z short_loan debt_rows).
  - exact debt_rows_run.
  - unfold debt_rows.
    apply list_elem_of_further, list_elem_of_further, list_elem_of_here.
  - vm_compute. discriminate.
  - vm_compute. reflexivity.
Defined.

(** X8.  The month-0 row and debt: in a returned table of [N >= 0] months
    the first row reports no interest, no principal and no coverage
    ratio, and as [debt_balance] the whole loan amount (0 without a
    loan), whatever the term and the rate. *)
Theorem month0_debt (inputs : gmap string Q) (N : Z)
    (debt_params : option DebtParams) (rs : list MonthRecord) :
  generate_monthly_projections inputs N debt_params = Ok rs ->
  (0 <= N)%Z ->
  exists r0,
    rs !! 0%nat = Some r0 /\
    interest_expense r0 = 0 /\ principal_payment r0 = 0 /\ dscr r0 = 0 /\
    debt_balance r0 = match debt_params with
                      | Some d => loan_amount d
                      | None => 0
                      end.
Proof.
  intros Hrun HN.
  assert (H0 : is_Some (rs !! 0%nat)).
  { apply lookup_lt_is_Some.
    apply projection_full in Hrun
      as (br & bc & bo & st0 & st' & _ & _ & _ & _ & Hrows).
    rewrite (rows_from_length _ _ _ _ _ Hrows), length_seqZ. lia. }
  destruct H0 as [r0 H0]. exists r0. split; [exact H0|].
  destruct (projection_row _ _ _ _ _ _ Hrun H0)
    as (br & bc & bo & s & s' & _ & _ & _ & _ & HR).
  destruct (rf_service _ _ _ _ _ _ _ _ _ _ _ _ HR) as (ds & Hds & Ei & Ep & Eb).
  pose proof (rf_dscr _ _ _ _ _ _ _ _ _ _ _ _ HR) as Ed.
  simpl in Hds, Ed. unfold debt_service_at in Hds. simpl in Hds.
  injection Hds as <-. simpl in Ei, Ep, Eb.
  rewrite andb_false_r in Ed. repeat split; assumption.
Qed.

Lemma month0_debt_witness :
  exists r0,
    debt_rows !! 0%nat = Some r0 /\
    interest_expense r0 = 0 /\ principal_payment r0 = 0 /\ dscr r0 = 0 /\
    debt_balance r0 = match Some short_loan with
                      | Some d => loan_amount d
                      | None => 0
                      end.
Proof.
  apply (month0_debt example_inputs 2%Z (Some short_loan) debt_rows).
  - exact debt_rows_run.
  - lia.
Defined.

(** X9.  Coverage ratio of a row: in every row of a returned table,
    when there is a loan, the month is 1 or later and [interest_expense +
    principal_payment] is positive, [dscr] is [fcf] (before the principal
    is subtracted) divided by that sum; in every other row it is 0. *)
Theorem row_dscr (inputs : gmap string Q) (N : Z)
    (debt_params : option DebtParams) (rs : list MonthRecord) (r : MonthRecord) :
  generate_monthly_projections inputs N debt_params = Ok rs ->
  r ∈ rs ->
  (is_Some debt_params -> (1 <= month r)%Z ->
   0 < interest_expense r + principal_payment r ->
   dscr r = fcf r / (interest_expense r + principal_payment r)) /\
  (debt_params = None \/ month r = 0%Z \/
   interest_expense r + principal_payment r <= 0 ->
   dscr r = 0).
Proof.
  intros Hrun Hin.
  destruct (row_month_index _ _ _ _ _ Hrun Hin) as (i & Hi & Emi).
  destruct (projection_row _ _ _ _ _ _ Hrun Hi)
    as (br & bc & bo & s & s' & _ & _ & _ & _ & HR).
  pose proof (rf_dscr _ _ _ _ _ _ _ _ _ _ _ _ HR) as Ed.
  rewrite <- Emi in Ed. split.
  - intros Hd Hm Hpos.
    replace (bool_decide (is_Some debt_params)) with true in Ed
      by (symmetry; now apply bool_decide_eq_true).
    replace (0 <? month r)%Z with true in Ed
      by (symmetry; apply Z.ltb_lt; lia).
    apply Qltb_true in Hpos. now rewrite Hpos in Ed.
  - intros [Hd | [Hm | Hle]].
    + subst debt_params. exact Ed.
    + rewrite Hm in Ed. now rewrite andb_false_r in Ed.
    + apply Qltb_false in Hle. rewrite Hle in Ed.
      now rewrite andb_false_r in Ed.
Qed.

Lemma row_dscr_witness :
  exists r, debt_rows !! 1%nat = Some r /\
    dscr r = fcf r / (interest_expense r + principal_payment r).
Proof.
  eexists. split; [reflexivity|].
  apply (proj1 (row_dscr example_inputs 2%Z (Some short_loan) debt_rows _
                  debt_rows_run
                  (list_elem_of_further _ _ _ (list_elem_of_here _ _)))).
  - eexists. reflexivity.
  - vm_compute. discriminate.
  - vm_compute. reflexivity.
Defined.

(** ** Margins and growth *)

(** X10.  Gross margin of a row: in every row of a returned table the
    gross margin is [(revenue - cogs) / revenue * 100] when the revenue is
    positive and 0 otherwise; because the COGS fraction is capped below 1
    it is never negative. *)
Theorem row_gross_margin (inputs : gmap string Q) (N : Z)
    (debt_params : option DebtParams) (rs : list MonthRecord) (r : MonthRecord) :
  generate_monthly_projections inputs N debt_params = Ok rs ->
  r ∈ rs ->
  (revenue r <= 0 -> gross_margin r = 0) /\
  (0 < revenue r ->
   gross_margin r = (revenue r - cogs r) / revenue r * 100) /\
  0 <= gross_margin r.
Proof.
  intros Hrun Hin.
  destruct (row_month_index _ _ _ _ _ Hrun Hin) as (i & Hi & Emi).
  destruct (projection_row _ _ _ _ _ _ Hrun Hi)
    as (br & bc & bo & s & s' & _ & Hbc & _ & _ & HR).
  pose proof (rf_gross_margin _ _ _ _ _ _ _ _ _ _ _ _ HR) as Eg.
  pose proof (emits_cogs _ _ _ _ _ _ _ (rf_emits _ _ _ _ _ _ _ _ _ _ _ _ HR)) as Ec.
  set (pct := current_cogs_pct_at bc (get inputs "cogs_increase" 0)
                (Z.of_nat i)) in *.
  assert (Hpct : pct <= 0.95) by apply py_min_le_r.
  destruct (Qltb 0 (revenue r)) eqn:Hb.
  - apply Qltb_true in Hb as Hpos.
    split; [intros Hle; lra|]. split; [intros _; exact Eg|].
    rewrite Eg.
    assert (H0 : 0 <= revenue r - cogs r) by (rewrite Ec; nra).
    assert (H1 : 0 <= (revenue r - cogs r) / revenue r).
    { apply Qle_shift_div_l; [assumption|]. lra. }
    lra.
  - apply Qltb_false in Hb as Hle.
    split; [intros _; exact Eg|]. split; [intros Hpos; lra|].
    rewrite Eg. apply Qle_refl.
Qed.

Lemma row_gross_margin_witness :
  exists r, example_rows !! 1%nat = Some r /\ 0 < revenue r /\
    gross_margin r = (revenue r - cogs r) / revenue r * 100.
Proof.
  eexists. split; [reflexivity|]. split; [vm_compute; reflexivity|].
  apply (proj1 (proj2 (row_gross_margin example_inputs 1%Z None example_rows _
                  example_rows_run
                  (list_elem_of_further _ _ _ (list_elem_of_here _ _))))).
  vm_compute. reflexivity.
Defined.

(** X11.  Revenue growth: the row of month [i] has revenue [base_revenue
    * (1 + price_increase) ^ i], computed from the base each month (the
    growth is taken as 0 when the key is absent); the month-0 row has the
    base revenue; and with a non-negative base revenue and growth rate
    the revenue never decreases from one row to the next. *)
Theorem revenue_growth (inputs : gmap string Q) (N : Z)
    (debt_params : option DebtParams) (rs : list MonthRecord) :
  generate_monthly_projections inputs N debt_params = Ok rs ->
  exists base_revenue,
    inputs !! "revenue"%string = Some base_revenue /\
    (forall (i : nat) (r : MonthRecord), rs !! i = Some r ->
       revenue r =
       base_revenue * (1 + get inputs "price_increase" 0) ^ Z.of_nat i) /\
    (forall r0, rs !! 0%nat = Some r0 -> revenue r0 == base_revenue) /\
    (0 <= base_revenue -> 0 <= get inputs "price_increase" 0 ->
     forall (i : nat) (p r : MonthRecord),
       rs !! i = Some p -> rs !! S i = Some r -> revenue p <= revenue r).
Proof.
  intros Hrun.
  destruct (projection_full _ _ _ _ Hrun)
    as (br & bc & bo & st0 & st' & Hbr & _ & _ & _ & Hrows).
  exists br. split; [assumption|].
  assert (Hrev : forall (i : nat) (r : MonthRecord), rs !! i = Some r ->
            revenue r =
            br * (1 + get inputs "price_increase" 0) ^ Z.of_nat i).
  { intros i r Hi.
    destruct (rows_from_lookup _ _ _ _ _ _ _ Hrows Hi) as (s & s' & m & Hm & HR).
    apply lookup_seqZ in Hm as [-> _].
    exact (rf_revenue _ _ _ _ _ _ _ _ _ _ _ _ HR). }
  split; [exact Hrev|]. split.
  - intros r0 H0. rewrite (Hrev _ _ H0). simpl. ring.
  - intros Hb Hg i p r Hp Hr.
    rewrite (Hrev _ _ Hp), (Hrev _ _ Hr).
    replace (Z.of_nat (S i)) with (Z.of_nat i + 1)%Z by lia.
    rewrite Qpower_plus' by lia. rewrite Qpower_1_r.
    assert (Hq : 0 <= (1 + get inputs "price_increase" 0) ^ Z.of_nat i)
      by (apply Qpower_0_le; lra).
    set (q := (1 + get inputs "price_increase" 0) ^ Z.of_nat i) in *.
    set (g := get inputs "price_increase" 0) in *.
    assert (E : br * (q * (1 + g)) == br * q + br * q * g) by ring.
    rewrite E.
    assert (0 <= br * q * g)
      by (apply Qmult_le_0_compat; [apply Qmult_le_0_compat|]; assumption).
    lra.
Qed.

Lemma revenue_growth_witness :
  exists p r,
    example_rows !! 0%nat = Some p /\ example_rows !! 1%nat = Some r /\
    revenue p <= revenue r.
Proof.
  do 2 eexists. split; [reflexivity|]. split; [reflexivity|].
  destruct (revenue_growth example_inputs 1%Z None example_rows
              example_rows_run) as (br & Hbr & _ & _ & Hmono).
  assert (H0 : 0 <= br).
  { vm_compute in Hbr. injection Hbr as <-. vm_compute. discriminate. }
  apply (Hmono H0 ltac:(vm_compute; discriminate) 0%nat); reflexivity.
Defined.

(** ** The horizon and the errors *)

Lemma for_each_app {S : Type} (body : S -> Z -> result S) (ms1 ms2 : list Z)
    (st : S) :
  for_each body (ms1 ++ ms2) st =
  (st1 <~ for_each body ms1 st ;; for_each body ms2 st1).
Proof.
  revert st. induction ms1 as [|m ms1 IH]; intros st; simpl.
  - reflexivity.
  - destruct (body st m); simpl; [apply IH | reflexivity].
Qed.

(** X12.  A longer horizon extends the table: when the projection of
    [N + 1 >= 0] months returns a table, the projection of [N] months
    returns the same table without its last row. *)
Theorem projection_prefix (inputs : gmap string Q) (N : Z)
    (debt_params : option DebtParams) (rs' : list MonthRecord) :
  generate_monthly_projections inputs (N + 1) debt_params = Ok rs' ->
  (0 <= N + 1)%Z ->
  exists rs r,
    generate_monthly_projections inputs N debt_params = Ok rs /\
    rs' = rs ++ [r].
Proof.
  unfold generate_monthly_projections. intros H HN.
  repeat match type of H with
  | rbind (getitem ?d ?k) _ = _ =>
      destruct (getitem d k); simpl in H |- *; [|discriminate]
  end.
  replace (N + 1 + 1)%Z with ((N + 1) + 1)%Z in H by lia.
  rewrite seqZ_app in H by lia.
  rewrite for_each_app in H.
  apply rbind_Ok in H as (st' & H & Hres). injection Hres as <-.
  apply rbind_Ok in H as (st1 & H1 & H2).
  rewrite H1. simpl.
  rewrite seqZ_cons, seqZ_nil in H2 by lia. simpl in H2.
  apply rbind_Ok in H2 as (st2 & H2 & E). injection E as <-.
  apply month_body_emits in H2 as (r & He & _).
  exists (results st1), r. split; [reflexivity|].
  exact (emits_results _ _ _ _ _ _ _ He).
Qed.

Lemma projection_prefix_witness :
  exists rs r,
    generate_monthly_projections example_inputs 0 None = Ok rs /\
    example_rows = rs ++ [r].
Proof.
  apply (projection_prefix example_inputs 0%Z None example_rows).
  - exact example_rows_run.
  - lia.
Defined.

(** X13.  When the engine returns: for a month count [N >= 0] and a loan
    whose monthly factor is not zero (or no loan), the engine returns a
    table exactly when the inputs carry the nine keys it subscripts. *)
Theorem returns_iff_required_keys (inputs : gmap string Q) (N : Z)
    (debt_params : option DebtParams) :
  (0 <= N)%Z -> debt_ok debt_params ->
  (exists rs, generate_monthly_projections inputs N debt_params = Ok rs) <->
  has_required_keys inputs.
Proof.
  intros HN Hd. split; [|intros Hk; now apply projection_total].
  intros [rs Hrun].
  assert (H0 : is_Some (rs !! 0%nat)).
  { apply lookup_lt_is_Some.
    destruct (projection_full _ _ _ _ Hrun)
      as (br & bc & bo & st0 & st' & _ & _ & _ & _ & Hrows).
    rewrite (rows_from_length _ _ _ _ _ Hrows), length_seqZ. lia. }
  destruct H0 as [r0 H0].
  destruct (projection_row _ _ _ _ _ _ Hrun H0)
    as (br & bc & bo & s & s' & Hbr & Hbc & Hbo & _ & HR).
  destruct (rf_days _ _ _ _ _ _ _ _ _ _ _ _ HR)
    as (ard & apd & ind & Hard & Hapd & Hind & _).
  destruct (emits_fcf _ _ _ _ _ _ _ (rf_emits _ _ _ _ _ _ _ _ _ _ _ _ HR))
    as (tax & dep & cap & Htax & Hdep & Hcap & _).
  unfold has_required_keys, required_keys.
  repeat (apply Forall_cons; split; [eexists; eassumption|]).
  constructor.
Qed.

Lemma returns_iff_required_keys_witness :
  (exists rs, generate_monthly_projections example_inputs 1 None = Ok rs) <->
  has_required_keys example_inputs.
Proof.
  apply (returns_iff_required_keys example_inputs 1%Z None).
  - lia.
  - simpl. exact I.
Defined.

(** X14.  Which key is missing: the engine subscripts the nine required
    keys in the order [revenue], [cogs_pct], [opex], [ar_days], [ap_days],
    [inventory_days], [tax_rate], [depreciation], [capex]; for a month
    count [N >= 0] it raises [KeyError] for the first of them that the
    inputs lack, whatever the loan. *)
Theorem first_missing_key (inputs : gmap string Q) (N : Z)
    (debt_params : option DebtParams) (i : nat) (k : string) :
  required_keys !! i = Some k ->
  Forall (fun k' => is_Some (inputs !! k')) (take i required_keys) ->
  inputs !! k = None ->
  (0 <= N)%Z ->
  generate_monthly_projections inputs N debt_params = Raise (KeyError k).
Proof.
  intros Hi Hpre Hnone HN.
  unfold generate_monthly_projections.
  rewrite seqZ_cons by lia.
  unfold required_keys in Hi, Hpre.
  do 9 (destruct i as [|i];
    [ injection Hi as <-; simpl in Hpre;
      repeat (apply Forall_cons in Hpre as [[? ?] Hpre]);
      repeat (erewrite getitem_Some by eassumption; simpl);
      try (unfold month_body; simpl;
           repeat (erewrite getitem_Some by eassumption; simpl));
      unfold getitem at 1; rewrite Hnone; reflexivity
    | ]).
  discriminate.
Qed.

Lemma first_missing_key_witness :
  generate_monthly_projections (delete "tax_rate"%string example_inputs) 1 None =
  Raise (KeyError "tax_rate").
Proof.
  apply (first_missing_key (delete "tax_rate"%string example_inputs) 1%Z None 6%nat).
  - reflexivity.
  - simpl. repeat constructor; eexists; vm_compute; reflexivity.
  - vm_compute. reflexivity.
  - lia.
Defined.

(** X15.  Empty horizon: for a negative month count the loop does not
    run; when the six keys read before the loop are present the engine
    returns the empty table, even if [tax_rate], [depreciation] or
    [capex] are missing. *)
Theorem negative_horizon_empty (inputs : gmap string Q) (N : Z)
    (debt_params : option DebtParams) :
  (N < 0)%Z ->
  Forall (fun k => is_Some (inputs !! k)) preloop_keys ->
  generate_monthly_projections inputs N debt_params = Ok [].
Proof.
  intros HN Hk. unfold preloop_keys in Hk.
  repeat (apply Forall_cons in Hk as [[? ?] Hk]).
  unfold generate_monthly_projections.
  repeat (erewrite getitem_Some by eassumption; simpl).
  rewrite seqZ_nil by lia. reflexivity.
Qed.

Lemma negative_horizon_empty_witness :
  generate_monthly_projections (delete "tax_rate"%string example_inputs)
                               (-1) None = Ok [].
Proof.
  apply (negative_horizon_empty (delete "tax_rate"%string example_inputs) (-1)%Z).
  - lia.
  - unfold preloop_keys. repeat constructor; eexists; vm_compute; reflexivity.
Defined.

(** ** The scenario adjuster *)

Lemma py_max_0_ge (x : Q) : 0 <= py_max 0 x.
Proof.
  unfold py_max. destruct (Qltb 0 x) eqn:E.
  - apply Qltb_true in E. lra.
  - apply Qle_refl.
Qed.

Lemma py_max_0_le (x y : Q) : 0 <= y -> x <= y -> py_max 0 x <= y.
Proof. intros Hy Hx. unfold py_max. destruct (Qltb 0 x); assumption. Qed.

(** What a successful adjustment is: the input itself, or the input with
    the three day terms overwritten. *)
Lemma apply_scenario_cases (base adj : gmap string Q) (kind : string) :
  apply_scenario_adjustments base kind = Ok adj ->
  adj = base \/
  exists a p i a' p' i',
    base !! "ar_days"%string = Some a /\
    base !! "ap_days"%string = Some p /\
    base !! "inventory_days"%string = Some i /\
    adj = <["inventory_days"%string := i']>
            (<["ap_days"%string := p']> (<["ar_days"%string := a']> base)) /\
    ((kind = "conservative"%string /\
      a' = a + 10 /\ p' = py_max 0 (p - 5) /\ i' = i * 1.15) \/
     (kind = "aggressive"%string /\
      a' = py_max 0 (a - 10) /\ p' = p + 10 /\ i' = i * 0.85)).
Proof.
  unfold apply_scenario_adjustments. intros H.
  destruct (String.eqb_spec kind "base"); [left; congruence|].
  destruct (String.eqb_spec kind "conservative") as [E|].
  - subst kind.
    apply rbind_Ok in H as (a & Ha & H). apply rbind_Ok in H as (p & Hp & H).
    apply rbind_Ok in H as (i & Hi & H). injection H as <-.
    apply getitem_Ok in Ha, Hp, Hi.
    right. exists a, p, i, (a + 10), (py_max 0 (p - 5)), (i * 1.15).
    repeat split; try assumption. left. repeat split.
  - destruct (String.eqb_spec kind "aggressive") as [E|]; [|left; congruence].
    subst kind.
    apply rbind_Ok in H as (a & Ha & H). apply rbind_Ok in H as (p & Hp & H).
    apply rbind_Ok in H as (i & Hi & H). injection H as <-.
    apply getitem_Ok in Ha, Hp, Hi.
    right. exists a, p, i, (py_max 0 (a - 10)), (p + 10), (i * 0.85).
    repeat split; try assumption. right. repeat split.
Qed.

(** The adjuster leaves every key other than the three day terms alone. *)
Lemma apply_scenario_frame (base adj : gmap string Q) (kind k : string) :
  apply_scenario_adjustments base kind = Ok adj ->
  k ∉ day_keys -> adj !! k = base !! k.
Proof.
  intros H Hk. apply apply_scenario_cases in H as [->|H]; [reflexivity|].
  destruct H as (a & p & i & a' & p' & i' & _ & _ & _ & -> & _).
  unfold day_keys in Hk.
  rewrite !lookup_insert_ne; [reflexivity|..]; intros <-; apply Hk;
    repeat first [apply list_elem_of_here | apply list_elem_of_further].
Qed.

(** X16.  Base and unrecognised kinds: for every kind other than
    [conservative] and [aggressive] the adjuster returns the record
    unchanged and reads no key, so it cannot raise. *)
Theorem scenario_other_kind (base : gmap string Q) (kind : string) :
  kind <> "conservative"%string -> kind <> "aggressive"%string ->
  apply_scenario_adjustments base kind = Ok base.
Proof.
  intros Hc Ha. unfold apply_scenario_adjustments.
  destruct (String.eqb_spec kind "base"); [reflexivity|].
  destruct (String.eqb_spec kind "conservative"); [contradiction|].
  destruct (String.eqb_spec kind "aggressive"); [contradiction|].
  reflexivity.
Qed.

Lemma scenario_other_kind_witness :
  apply_scenario_adjustments ∅ "optimistic" = Ok ∅.
Proof.
  apply (scenario_other_kind ∅ "optimistic"); discriminate.
Defined.

(** X17.  Frame of the adjuster: a successful adjustment keeps the set
    of keys of the record and the value of every key other than
    [ar_days], [ap_days] and [inventory_days]. *)
Theorem scenario_frame (base adj : gmap string Q) (kind : string) :
  apply_scenario_adjustments base kind = Ok adj ->
  dom adj = dom base /\
  forall k, k ∉ day_keys -> adj !! k = base !! k.
Proof.
  intros H. split; [|intros k Hk; now apply apply_scenario_frame with kind].
  apply apply_scenario_cases in H as [->|H]; [reflexivity|].
  destruct H as (a & p & i & a' & p' & i' & Ha & Hp & Hi & -> & _).
  rewrite !dom_insert_lookup_L; [reflexivity|..];
    rewrite ?lookup_insert_ne by discriminate; eauto.
Qed.

Lemma scenario_frame_witness :
  exists adj,
    apply_scenario_adjustments example_inputs "aggressive" = Ok adj /\
    dom adj = dom example_inputs /\
    forall k, k ∉ day_keys -> adj !! k = example_inputs !! k.
Proof.
  eexists. split; [vm_compute; reflexivity|].
  apply (scenario_frame example_inputs _ "aggressive").
  vm_compute. reflexivity.
Defined.

(** X18.  Missing day term: [conservative] and [aggressive] read
    [ar_days], [ap_days], [inventory_days] in this order and raise
    [KeyError] for the first one that the record lacks. *)
Theorem scenario_missing_day (base : gmap string Q) (kind : string)
    (i : nat) (k : string) :
  kind = "conservative"%string \/ kind = "aggressive"%string ->
  day_keys !! i = Some k ->
  Forall (fun k' => is_Some (base !! k')) (take i day_keys) ->
  base !! k = None ->
  apply_scenario_adjustments base kind = Raise (KeyError k).
Proof.
  intros Hkind Hi Hpre Hnone. unfold day_keys in Hi, Hpre.
  unfold apply_scenario_adjustments.
  destruct Hkind as [-> | ->].
  - change (String.eqb "conservative" "base") with false.
    change (String.eqb "conservative" "conservative") with true. cbv iota.
    do 3 (destruct i as [|i];
      [ injection Hi as <-; simpl in Hpre;
        repeat (apply Forall_cons in Hpre as [[? ?] Hpre]);
        repeat (erewrite getitem_Some by eassumption; cbn [rbind]);
        unfold getitem at 1; rewrite Hnone; reflexivity
      | ]).
    discriminate.
  - change (String.eqb "aggressive" "base") with false.
    change (String.eqb "aggressive" "conservative") with false.
    change (String.eqb "aggressive" "aggressive") with true. cbv iota.
    do 3 (destruct i as [|i];
      [ injection Hi as <-; simpl in Hpre;
        repeat (apply Forall_cons in Hpre as [[? ?] Hpre]);
        repeat (erewrite getitem_Some by eassumption; cbn [rbind]);
        unfold getitem at 1; rewrite Hnone; reflexivity
      | ]).
    discriminate.
Qed.

Lemma scenario_missing_day_witness :
  apply_scenario_adjustments (delete "ap_days"%string example_inputs)
                             "conservative" =
  Raise (KeyError "ap_days").
Proof.
  apply (scenario_missing_day (delete "ap_days"%string example_inputs)
                              "conservative" 1%nat).
  - left. reflexivity.
  - reflexivity.
  - simpl. repeat constructor; eexists; vm_compute; reflexivity.
  - vm_compute. reflexivity.
Defined.

Ltac not_day_key :=
  unfold day_keys; rewrite !elem_of_cons, elem_of_nil;
  intros [?|[?|[?|[]]]]; discriminate.

Lemma apply_scenario_is_Some (base adj : gmap string Q) (kind k : string) :
  apply_scenario_adjustments base kind = Ok adj ->
  is_Some (base !! k) -> is_Some (adj !! k).
Proof.
  intros H Hk. apply apply_scenario_cases in H as [->|H]; [assumption|].
  destruct H as (a & p & i & a' & p' & i' & _ & _ & _ & -> & _).
  rewrite !lookup_insert_is_Some'. auto.
Qed.

Lemma apply_scenario_total (base : gmap string Q) (kind : string) :
  Forall (fun k => is_Some (base !! k)) day_keys ->
  exists adj, apply_scenario_adjustments base kind = Ok adj.
Proof.
  intros Hk. unfold day_keys in Hk.
  repeat (apply Forall_cons in Hk as [[? ?] Hk]).
  unfold apply_scenario_adjustments.
  destruct (String.eqb kind "base"); [eauto|].
  destruct (String.eqb kind "conservative");
    [repeat (erewrite getitem_Some by eassumption; cbn [rbind]); eauto|].
  destruct (String.eqb kind "aggressive");
    [repeat (erewrite getitem_Some by eassumption; cbn [rbind]); eauto|].
  eauto.
Qed.

(** X19.  Day terms stay non-negative: when the three day terms of the
    record are non-negative, so are those of every successful adjustment. *)
Theorem scenario_days_nonneg (base adj : gmap string Q) (kind : string) :
  apply_scenario_adjustments base kind = Ok adj ->
  (forall k v, k ∈ day_keys -> base !! k = Some v -> 0 <= v) ->
  forall k v, k ∈ day_keys -> adj !! k = Some v -> 0 <= v.
Proof.
  intros H Hbase k v Hk Hv.
  apply apply_scenario_cases in H as [->|H]; [now apply (Hbase k)|].
  destruct H as (a & p & i & a' & p' & i' & Ha & Hp & Hi & -> & Hkind).
  assert (H0a : 0 <= a).
  { apply (Hbase "ar_days"%string); [|assumption].
    unfold day_keys. apply list_elem_of_here. }
  assert (H0i : 0 <= i).
  { apply (Hbase "inventory_days"%string); [|assumption].
    unfold day_keys. do 2 apply list_elem_of_further. apply list_elem_of_here. }
  assert (H0p : 0 <= p).
  { apply (Hbase "ap_days"%string); [|assumption].
    unfold day_keys. apply list_elem_of_further, list_elem_of_here. }
  pose proof (py_max_0_ge (p - 5)). pose proof (py_max_0_ge (a - 10)).
  unfold day_keys in Hk. rewrite !elem_of_cons, elem_of_nil in Hk.
  destruct Hk as [->|[->|[->|[]]]];
    rewrite ?lookup_insert_eq, ?lookup_insert_ne in Hv by discriminate;
    rewrite ?lookup_insert_eq in Hv; injection Hv as <-;
    destruct Hkind as [(_ & -> & -> & ->)|(_ & -> & -> & ->)];
    first [assumption | lra].
Qed.

Lemma scenario_days_nonneg_witness :
  exists adj,
    apply_scenario_adjustments example_inputs "aggressive" = Ok adj /\
    forall k v, k ∈ day_keys -> adj !! k = Some v -> 0 <= v.
Proof.
  eexists. split; [vm_compute; reflexivity|].
  apply (scenario_days_nonneg example_inputs _ "aggressive").
  - vm_compute. reflexivity.
  - intros k v Hk. unfold day_keys in Hk.
    rewrite !elem_of_cons, elem_of_nil in Hk.
    destruct Hk as [->|[->|[->|[]]]]; vm_compute; intros [= <-]; discriminate.
Defined.

(** X20.  Cash-conversion cycle under the scenarios: for non-negative day
    terms, [conservative] lengthens [ar_days + inventory_days - ap_days]
    by at least 10 days and [aggressive] shortens it by at least 10. *)
Theorem scenario_ccc_shift (base : gmap string Q) (a p i : Q) :
  base !! "ar_days"%string = Some a ->
  base !! "ap_days"%string = Some p ->
  base !! "inventory_days"%string = Some i ->
  0 <= a -> 0 <= p -> 0 <= i ->
  (exists adj a' p' i',
     apply_scenario_adjustments base "conservative" = Ok adj /\
     adj !! "ar_days"%string = Some a' /\
     adj !! "ap_days"%string = Some p' /\
     adj !! "inventory_days"%string = Some i' /\
     (a + i - p) + 10 <= a' + i' - p') /\
  (exists adj a' p' i',
     apply_scenario_adjustments base "aggressive" = Ok adj /\
     adj !! "ar_days"%string = Some a' /\
     adj !! "ap_days"%string = Some p' /\
     adj !! "inventory_days"%string = Some i' /\
     a' + i' - p' <= (a + i - p) - 10).
Proof.
  intros Ha Hp Hi H0a H0p H0i. split.
  - eexists _, (a + 10), (py_max 0 (p - 5)), (i * 1.15).
    split; [apply (apply_conservative base a p i); assumption|].
    split; [by simplify_map_eq|]. split; [by simplify_map_eq|].
    split; [by simplify_map_eq|].
    assert (py_max 0 (p - 5) <= p) by (apply py_max_0_le; lra).
    lra.
  - eexists _, (py_max 0 (a - 10)), (p + 10), (i * 0.85).
    split; [apply (apply_aggressive base a p i); assumption|].
    split; [by simplify_map_eq|]. split; [by simplify_map_eq|].
    split; [by simplify_map_eq|].
    assert (py_max 0 (a - 10) <= a) by (apply py_max_0_le; lra).
    lra.
Qed.

Lemma scenario_ccc_shift_witness :
  (exists adj a' p' i',
     apply_scenario_adjustments example_inputs "conservative" = Ok adj /\
     adj !! "ar_days"%string = Some a' /\
     adj !! "ap_days"%string = Some p' /\
     adj !! "inventory_days"%string = Some i' /\
     (45 + 60 - 30) + 10 <= a' + i' - p') /\
  (exists adj a' p' i',
     apply_scenario_adjustments example_inputs "aggressive" = Ok adj /\
     adj !! "ar_days"%string = Some a' /\
     adj !! "ap_days"%string = Some p' /\
     adj !! "inventory_days"%string = Some i' /\
     a' + i' - p' <= (45 + 60 - 30) - 10).
Proof.
  apply (scenario_ccc_shift example_inputs 45 30 60);
    vm_compute; first [reflexivity | discriminate].
Defined.

(** ** The scenarios side by side *)

Lemma projection_length (inputs : gmap string Q) (N : Z)
    (debt_params : option DebtParams) (rs : list MonthRecord) :
  generate_monthly_projections inputs N debt_params = Ok rs ->
  (0 <= N)%Z -> Z.of_nat (length rs) = (N + 1)%Z.
Proof.
  intros Hrun HN.
  apply projection_full in Hrun
    as (br & bc & bo & st0 & st' & _ & _ & _ & _ & Hrows).
  rewrite (rows_from_length _ _ _ _ _ Hrows), length_seqZ. lia.
Qed.

Lemma apply_scenario_required_keys (base adj : gmap string Q) (kind : string) :
  apply_scenario_adjustments base kind = Ok adj ->
  has_required_keys base -> has_required_keys adj.
Proof.
  intros H Hk. unfold has_required_keys in *.
  eapply Forall_impl; [exact Hk|].
  intros k. now apply apply_scenario_is_Some with kind.
Qed.

Lemma required_keys_day_keys (base : gmap string Q) :
  has_required_keys base -> Forall (fun k => is_Some (base !! k)) day_keys.
Proof.
  unfold has_required_keys, required_keys, day_keys. intros H.
  repeat (apply Forall_cons in H as [? H]).
  repeat (apply Forall_cons; split; [assumption|]). constructor.
Qed.

(** X21.  The comparison: on a record with the required keys (and a loan
    whose monthly factor is not zero), for [N >= 0] months,
    [generate_scenario_comparison] returns three tables named [base],
    [conservative], [aggressive], in this order, each of [N + 1] rows;
    the [base] table is the projection of the record itself. *)
Theorem scenario_comparison_tables (base : gmap string Q) (N : Z)
    (debt_params : option DebtParams) :
  has_required_keys base -> debt_ok debt_params -> (0 <= N)%Z ->
  exists b c a,
    generate_scenario_comparison base N debt_params =
      Ok [("base"%string, b); ("conservative"%string, c);
          ("aggressive"%string, a)] /\
    generate_monthly_projections base N debt_params = Ok b /\
    Z.of_nat (length b) = (N + 1)%Z /\
    Z.of_nat (length c) = (N + 1)%Z /\
    Z.of_nat (length a) = (N + 1)%Z.
Proof.
  intros Hk Hd HN.
  pose proof (required_keys_day_keys base Hk) as Hdays.
  destruct (apply_scenario_total base "conservative" Hdays) as [ic Hic].
  destruct (apply_scenario_total base "aggressive" Hdays) as [ia Hia].
  pose proof (apply_scenario_required_keys _ _ _ Hic Hk) as Hkc.
  pose proof (apply_scenario_required_keys _ _ _ Hia Hk) as Hka.
  destruct (projection_total base N debt_params Hk Hd) as [b Hb].
  destruct (projection_total ic N debt_params Hkc Hd) as [c Hc].
  destruct (projection_total ia N debt_params Hka Hd) as [a Ha].
  exists b, c, a. split.
  - unfold generate_scenario_comparison.
    change (apply_scenario_adjustments base "base") with (Ok base).
    cbn [rbind]. rewrite Hb. cbn [rbind].
    rewrite Hic. cbn [rbind]. rewrite Hc. cbn [rbind].
    rewrite Hia. cbn [rbind]. rewrite Ha. reflexivity.
  - split; [exact Hb|].
    repeat split; eapply projection_length; eassumption.
Qed.

Lemma scenario_comparison_tables_witness :
  exists b c a,
    generate_scenario_comparison example_inputs 1 None =
      Ok [("base"%string, b); ("conservative"%string, c);
          ("aggressive"%string, a)] /\
    generate_monthly_projections example_inputs 1 None = Ok b /\
    Z.of_nat (length b) = (1 + 1)%Z /\
    Z.of_nat (length c) = (1 + 1)%Z /\
    Z.of_nat (length a) = (1 + 1)%Z.
Proof.
  apply (scenario_comparison_tables example_inputs 1%Z None).
  - exact example_has_required_keys.
  - simpl. exact I.
  - lia.
Defined.

(** X22.  Scenarios leave the profit lines alone: the table of an
    adjusted record has, row by row, the same [revenue], [cogs], [ebit],
    [interest_expense], [ebit_after_interest], [ebit_after_tax],
    [principal_payment], [debt_balance] and [gross_margin] as the table
    of the record itself; only the working-capital and cash fields can
    differ. *)
Theorem scenario_keeps_profit (base adj : gmap string Q) (kind : string)
    (N : Z) (debt_params : option DebtParams) (rs rs' : list MonthRecord)
    (i : nat) (r r' : MonthRecord) :
  apply_scenario_adjustments base kind = Ok adj ->
  generate_monthly_projections base N debt_params = Ok rs ->
  generate_monthly_projections adj N debt_params = Ok rs' ->
  rs !! i = Some r -> rs' !! i = Some r' ->
  revenue r' = revenue r /\ cogs r' = cogs r /\ ebit r' = ebit r /\
  interest_expense r' = interest_expense r /\
  ebit_after_interest r' = ebit_after_interest r /\
  ebit_after_tax r' = ebit_after_tax r /\
  principal_payment r' = principal_payment r /\
  debt_balance r' = debt_balance r /\
  gross_margin r' = gross_margin r.
Proof.
  intros Hadj Hrun Hrun' Hi Hi'.
  assert (Hf : forall k, k ∉ day_keys -> adj !! k = base !! k)
    by (intros k; now apply apply_scenario_frame with kind).
  assert (Hg : forall k, k ∉ day_keys -> get adj k 0 = get base k 0)
    by (intros k Hk; unfold get; now rewrite Hf).
  destruct (projection_row _ _ _ _ _ _ Hrun Hi)
    as (br & bc & bo & s & s' & Hbr & Hbc & Hbo & _ & HR).
  destruct (projection_row _ _ _ _ _ _ Hrun' Hi')
    as (br' & bc' & bo' & t & t' & Hbr' & Hbc' & Hbo' & _ & HR').
  rewrite Hf in Hbr', Hbc', Hbo' by not_day_key.
  rewrite !Hg in HR' by not_day_key.
  assert (br' = br) by congruence. assert (bc' = bc) by congruence.
  assert (bo' = bo) by congruence. subst br' bc' bo'.
  pose proof (rf_emits _ _ _ _ _ _ _ _ _ _ _ _ HR) as He.
  pose proof (rf_emits _ _ _ _ _ _ _ _ _ _ _ _ HR') as He'.
  destruct (rf_service _ _ _ _ _ _ _ _ _ _ _ _ HR) as (ds & Hds & Ei & Ep & Eb).
  destruct (rf_service _ _ _ _ _ _ _ _ _ _ _ _ HR')
    as (ds' & Hds' & Ei' & Ep' & Eb').
  assert (ds' = ds) by congruence. subst ds'.
  destruct (emits_fcf _ _ _ _ _ _ _ He) as (tax & ? & ? & Htax & _ & _ & Et & _).
  destruct (emits_fcf _ _ _ _ _ _ _ He')
    as (tax' & ? & ? & Htax' & _ & _ & Et' & _).
  rewrite Hf in Htax' by not_day_key.
  assert (tax' = tax) by congruence. subst tax'.
  assert (Erev : revenue r' = revenue r).
  { now rewrite (rf_revenue _ _ _ _ _ _ _ _ _ _ _ _ HR'),
      (rf_revenue _ _ _ _ _ _ _ _ _ _ _ _ HR). }
  assert (Ecogs : cogs r' = cogs r).
  { now rewrite (emits_cogs _ _ _ _ _ _ _ He'), (emits_cogs _ _ _ _ _ _ _ He),
      Erev. }
  assert (Eebit : ebit r' = ebit r).
  { now rewrite (rf_ebit _ _ _ _ _ _ _ _ _ _ _ _ HR'),
      (rf_ebit _ _ _ _ _ _ _ _ _ _ _ _ HR), Erev, Ecogs. }
  assert (Eint : interest_expense r' = interest_expense r) by congruence.
  assert (Eeai : ebit_after_interest r' = ebit_after_interest r).
  { now rewrite (rf_ebit_after_interest _ _ _ _ _ _ _ _ _ _ _ _ HR'),
      (rf_ebit_after_interest _ _ _ _ _ _ _ _ _ _ _ _ HR), Eebit, Eint. }
  repeat split; try congruence.
  now rewrite (rf_gross_margin _ _ _ _ _ _ _ _ _ _ _ _ HR'),
    (rf_gross_margin _ _ _ _ _ _ _ _ _ _ _ _ HR), Erev, Ecogs.
Qed.

Lemma scenario_keeps_profit_witness :
  exists adj rs' r r',
    apply_scenario_adjustments example_inputs "conservative" = Ok adj /\
    generate_monthly_projections adj 1 None = Ok rs' /\
    example_rows !! 1%nat = Some r /\ rs' !! 1%nat = Some r' /\
    revenue r' = revenue r /\ cogs r' = cogs r /\ ebit r' = ebit r /\
    interest_expense r' = interest_expense r /\
    ebit_after_interest r' = ebit_after_interest r /\
    ebit_after_tax r' = ebit_after_tax r /\
    principal_payment r' = principal_payment r /\
    debt_balance r' = debt_balance r /\
    gross_margin r' = gross_margin r.
Proof.
  eexists _, _, _, _.
  split; [vm_compute; reflexivity|]. split; [vm_compute; reflexivity|].
  split; [reflexivity|]. split; [reflexivity|].
  eapply (scenario_keeps_profit example_inputs _ "conservative" 1%Z None
            example_rows _ 1%nat).
  - vm_compute. reflexivity.
  - exact example_rows_run.
  - vm_compute. reflexivity.
  - reflexivity.
  - reflexivity.
Defined.

(** ** Amortization with interest *)

Section InterestBranch.

Variable d : DebtParams.

Local Abbreviation rate := (interest_rate d / 12).
Local Abbreviation pv n :=
  (monthly_payment d * ((1 - (1 + rate) ^ (- n)) / rate)).

Hypothesis Hrate : ~ rate == 0.
Hypothesis Hfactor : ~ 1 + rate == 0.

(** Within the term a loan with interest takes the present-value branch. *)
Lemma interest_service (m : Z) :
  (m <= term_months d)%Z ->
  calculate_debt_service (Some d) m =
  let prev_balance :=
    if (1 <? m)%Z then pv (term_months d - m + 1 + 1)%Z else loan_amount d in
  Ok (DS.mk (prev_balance * rate)
            (monthly_payment d - prev_balance * rate)
            (pv (term_months d - m + 1)%Z)).
Proof.
  intros Hm. unfold calculate_debt_service.
  replace (term_months d <? m)%Z with false by (symmetry; apply Z.ltb_ge; lia).
  replace (term_months d - m + 1 <=? 0)%Z with false
    by (symmetry; apply Z.leb_gt; lia).
  replace (Qeq_bool rate 0) with false
    by (symmetry; apply not_true_iff_false; intros E;
        apply Qeq_bool_iff in E; contradiction).
  unfold py_pow.
  replace (Qeq_bool (1 + rate) 0) with false
    by (symmetry; apply not_true_iff_false; intros E;
        apply Qeq_bool_iff in E; contradiction).
  simpl. destruct (1 <? m)%Z; reflexivity.
Qed.

End InterestBranch.

(** X25.  Interest follows the previous month's reported balance: for a
    loan whose monthly rate [r] is neither 0 nor -1, the interest of
    month 1 is [r] times the loan amount, and the interest of a month
    from 2 to the term is [r] times the balance reported for the month
    before. *)
Theorem interest_on_previous_balance (d : DebtParams) :
  ~ interest_rate d / 12 == 0 -> ~ 1 + interest_rate d / 12 == 0 ->
  ((1 <= term_months d)%Z ->
   exists s,
     calculate_debt_service (Some d) 1 = Ok s /\
     DS.interest_expense s = loan_amount d * (interest_rate d / 12)) /\
  (forall m : Z, (2 <= m <= term_months d)%Z ->
     exists p s,
       calculate_debt_service (Some d) (m - 1) = Ok p /\
       calculate_debt_service (Some d) m = Ok s /\
       DS.interest_expense s =
       DS.remaining_balance p * (interest_rate d / 12)).
Proof.
  intros Hr Hf. split.
  - intros HT. eexists.
    split; [apply interest_service; [assumption|assumption|lia]|].
    reflexivity.
  - intros m Hm. do 2 eexists.
    split; [apply interest_service; [assumption|assumption|lia]|].
    split; [apply interest_service; [assumption|assumption|lia]|].
    cbn [DS.interest_expense DS.remaining_balance].
    replace (1 <? m)%Z with true by (symmetry; apply Z.ltb_lt; lia).
    replace (term_months d - (m - 1) + 1)%Z with (term_months d - m + 1 + 1)%Z
      by lia.
    reflexivity.
Qed.

Lemma interest_on_previous_balance_witness :
  exists p s,
    calculate_debt_service (Some interest_loan) (4 - 1) = Ok p /\
    calculate_debt_service (Some interest_loan) 4 = Ok s /\
    DS.interest_expense s =
    DS.remaining_balance p * (interest_rate interest_loan / 12).
Proof.
  apply (proj2 (interest_on_previous_balance interest_loan
                  ltac:(vm_compute; discriminate)
                  ltac:(vm_compute; discriminate)) 4%Z).
  vm_compute. split; discriminate.
Defined.

(** ** Liquidity ratios in the table *)

(** X27.  Liquidity ratios of a row: in every row of a returned table
    the current ratio is [ar + inventory + cash_balance] and the quick
    ratio [ar + inventory + cash_balance - inventory], both divided by
    [ap] when [ap] is positive and by 1 otherwise, with the row's own
    cash balance; with non-negative inventory the quick ratio does not
    exceed the current ratio. *)
Theorem row_liquidity_ratios (inputs : gmap string Q) (N : Z)
    (debt_params : option DebtParams) (rs : list MonthRecord) (r : MonthRecord) :
  generate_monthly_projections inputs N debt_params = Ok rs ->
  r ∈ rs ->
  (0 < ap r ->
   current_ratio r = (ar r + inventory r + cash_balance r) / ap r /\
   quick_ratio r =
     (ar r + inventory r + cash_balance r - inventory r) / ap r) /\
  (ap r <= 0 ->
   current_ratio r = (ar r + inventory r + cash_balance r) / 1 /\
   quick_ratio r = (ar r + inventory r + cash_balance r - inventory r) / 1) /\
  (0 <= inventory r -> quick_ratio r <= current_ratio r).
Proof.
  intros Hrun Hin. apply list_elem_of_lookup in Hin as (i & Hi).
  destruct (projection_row _ _ _ _ _ _ Hrun Hi)
    as (br & bc & bo & s & s' & _ & _ & _ & _ & HR).
  destruct (rf_tier1 _ _ _ _ _ _ _ _ _ _ _ _ HR) as (Ec & Eq & _ & _).
  unfold calculate_tier1_metrics in Ec, Eq.
  cbn [T1.current_ratio T1.quick_ratio] in Ec, Eq.
  rewrite Ec, Eq. clear Ec Eq.
  split; [|split].
  - intros Hap. apply Qltb_true in Hap as Hb. rewrite Hb.
    split; reflexivity.
  - intros Hap. apply Qltb_false in Hap as Hb. rewrite Hb.
    split; reflexivity.
  - intros Hinv.
    assert (Hcl : 0 < (if Qltb 0 (ap r) then ap r else 1)).
    { destruct (Qltb 0 (ap r)) eqn:E; [now apply Qltb_true | reflexivity]. }
    unfold Qdiv. apply Qmult_le_compat_r; [lra|].
    apply Qinv_le_0_compat. lra.
Qed.

Lemma row_liquidity_ratios_witness :
  exists r, example_rows !! 1%nat = Some r /\ 0 < ap r /\
    current_ratio r = (ar r + inventory r + cash_balance r) / ap r /\
    quick_ratio r =
      (ar r + inventory r + cash_balance r - inventory r) / ap r.
Proof.
  eexists. split; [reflexivity|]. split; [vm_compute; reflexivity|].
  apply (proj1 (row_liquidity_ratios example_inputs 1%Z None example_rows _
                  example_rows_run
                  (list_elem_of_further _ _ _ (list_elem_of_here _ _)))).
  vm_compute. reflexivity.
Defined.

(** ** Steady state *)

Lemma py_min_comp (a a' c : Q) : a == a' -> py_min a c == py_min a' c.
Proof.
  intros E. unfold py_min.
  destruct (Qltb c a) eqn:E1, (Qltb c a') eqn:E2;
    try apply Qltb_true in E1; try apply Qltb_true in E2;
    try apply Qltb_false in E1; try apply Qltb_false in E2; lra.
Qed.

Lemma no_growth_factor (x : Q) (m : Z) : x == 0 -> (1 + x) ^ m == 1.
Proof. intros E. rewrite E, Qplus_0_r. apply Qpower_1. Qed.

(** X28.  Steady state: when [price_increase] and [cogs_increase] are 0
    or absent, every row of a returned table has the base revenue, and
    its working capital does not move: [delta_wc], [delta_ar],
    [delta_inventory] and [delta_ap] are 0, so that [fcf = ebit_after_tax
    + depreciation - capex]. *)
Theorem steady_state (inputs : gmap string Q) (N : Z)
    (debt_params : option DebtParams) (rs : list MonthRecord) (r : MonthRecord) :
  generate_monthly_projections inputs N debt_params = Ok rs ->
  get inputs "price_increase" 0 == 0 ->
  get inputs "cogs_increase" 0 == 0 ->
  r ∈ rs ->
  (exists base_revenue,
     inputs !! "revenue"%string = Some base_revenue /\
     revenue r == base_revenue) /\
  delta_wc r == 0 /\ delta_ar r == 0 /\
  delta_inventory r == 0 /\ delta_ap r == 0 /\
  (exists depreciation capex,
     inputs !! "depreciation"%string = Some depreciation /\
     inputs !! "capex"%string = Some capex /\
     fcf r == ebit_after_tax r + depreciation - capex).
Proof.
  intros Hrun Hpi Hci Hin. apply list_elem_of_lookup in Hin as (i & Hi).
  apply projection_full in Hrun
    as (br & bc & bo & st0 & st' & Hbr & Hbc & _ & _ & Hrows).
  assert (Hrow : forall s m x s',
    row_facts inputs debt_params br (get inputs "price_increase" 0)
      bc (get inputs "cogs_increase" 0) bo (get inputs "opex_increase" 0)
      s m x s' ->
    revenue x == br /\ cogs x == br * py_min bc 0.95).
  { intros s m x s' HX.
    assert (E : revenue x == br).
    { rewrite (rf_revenue _ _ _ _ _ _ _ _ _ _ _ _ HX), no_growth_factor
        by assumption. ring. }
    split; [exact E|].
    rewrite (emits_cogs _ _ _ _ _ _ _ (rf_emits _ _ _ _ _ _ _ _ _ _ _ _ HX)), E.
    unfold current_cogs_pct_at.
    rewrite (py_min_comp (bc * (1 + get inputs "cogs_increase" 0) ^ m) bc).
    - reflexivity.
    - rewrite no_growth_factor by assumption. ring. }
  assert (Hdeltas : delta_wc r == 0 /\ delta_ar r == 0 /\
                    delta_inventory r == 0 /\ delta_ap r == 0).
  { destruct i as [|i].
    - destruct (rows_from_lookup _ _ _ _ _ _ _ Hrows Hi)
        as (s & s' & m & Hm & HR).
      apply lookup_seqZ in Hm as [-> _].
      destruct (emits_baseline _ _ _ _ _ _ _
                  (rf_emits _ _ _ _ _ _ _ _ _ _ _ _ HR) eq_refl)
        as (-> & -> & -> & ->).
      repeat split; reflexivity.
    - assert (Hp : is_Some (rs !! i)).
      { apply lookup_lt_is_Some. apply lookup_lt_Some in Hi. lia. }
      destruct Hp as [p Hp].
      destruct (rows_from_lookup_next _ _ _ _ _ _ _ _ Hrows Hp Hi)
        as (s1 & s2 & s3 & m1 & m2 & _ & Hm2 & Hfp & Hfr).
      apply lookup_seqZ in Hm2 as [-> _].
      destruct (rf_previous _ _ _ _ _ _ _ _ _ _ _ _ Hfp) as (Ew & Ea & Ei & Ep).
      destruct (rf_delta _ _ _ _ _ _ _ _ _ _ _ _ Hfr) as (Dw & Da & Di & Dp);
        [lia|].
      destruct (Hrow _ _ _ _ Hfp) as (Rp & Cp).
      destruct (Hrow _ _ _ _ Hfr) as (Rr & Cr).
      destruct (rf_days _ _ _ _ _ _ _ _ _ _ _ _ Hfp)
        as (ard & apd & ind & Hard & Hapd & Hind & Ap & Ip & Pp & _).
      destruct (rf_days _ _ _ _ _ _ _ _ _ _ _ _ Hfr)
        as (ard' & apd' & ind' & Hard' & Hapd' & Hind' & Ar & Ir & Pr & _).
      assert (ard' = ard) by congruence. assert (apd' = apd) by congruence.
      assert (ind' = ind) by congruence. subst ard' apd' ind'.
      rewrite Dw, Da, Di, Dp, Ew, Ea, Ei, Ep.
      rewrite (rf_wc _ _ _ _ _ _ _ _ _ _ _ _ Hfp),
        (rf_wc _ _ _ _ _ _ _ _ _ _ _ _ Hfr).
      rewrite Ap, Ip, Pp, Ar, Ir, Pr, Rp, Cp, Rr, Cr.
      repeat split; ring. }
  destruct (rows_from_lookup _ _ _ _ _ _ _ Hrows Hi) as (s & s' & m & _ & HR).
  split; [exists br; split; [assumption | exact (proj1 (Hrow _ _ _ _ HR))]|].
  destruct Hdeltas as (Dw & Da & Di & Dp).
  repeat (split; [assumption|]).
  destruct (emits_fcf _ _ _ _ _ _ _ (rf_emits _ _ _ _ _ _ _ _ _ _ _ _ HR))
    as (tax & dep & cap & _ & Hdep & Hcap & _ & _ & Ef).
  exists dep, cap. repeat split; try assumption.
  rewrite Ef, Dw. ring.
Qed.

Lemma steady_rows_run :
  generate_monthly_projections steady_inputs 1 None = Ok steady_rows.
Proof. vm_compute. reflexivity. Defined.

Lemma steady_state_witness :
  exists r, steady_rows !! 1%nat = Some r /\
    delta_wc r == 0 /\ delta_ar r == 0 /\
    delta_inventory r == 0 /\ delta_ap r == 0.
Proof.
  eexists. split; [reflexivity|].
  pose proof (steady_state steady_inputs 1%Z None steady_rows _
                steady_rows_run
                ltac:(vm_compute; reflexivity) ltac:(vm_compute; reflexivity)
                (list_elem_of_further _ _ _ (list_elem_of_here _ _)))
    as (_ & Dw & Da & Di & Dp & _).
  repeat split; assumption.
Defined.

(** X29.  Operating margin of a row: in every row of a returned table
    the operating margin is [ebit / revenue * 100] when the revenue is
    positive and 0 otherwise; with a non-negative base opex and growth
    factor it does not exceed the gross margin. *)
Theorem row_operating_margin (inputs : gmap string Q) (N : Z)
    (debt_params : option DebtParams) (rs : list MonthRecord) (r : MonthRecord) :
  generate_monthly_projections inputs N debt_params = Ok rs ->
  r ∈ rs ->
  (revenue r <= 0 -> operating_margin r = 0) /\
  (0 < revenue r ->
   operating_margin r = ebit r / revenue r * 100 /\
   exists base_opex,
     inputs !! "opex"%string = Some base_opex /\
     (0 <= base_opex -> 0 <= 1 + get inputs "opex_increase" 0 ->
      operating_margin r <= gross_margin r)).
Proof.
  intros Hrun Hin.
  destruct (row_month_index _ _ _ _ _ Hrun Hin) as (i & Hi & Emi).
  destruct (projection_row _ _ _ _ _ _ Hrun Hi)
    as (br & bc & bo & s & s' & _ & _ & Hbo & _ & HR).
  destruct (rf_tier1 _ _ _ _ _ _ _ _ _ _ _ _ HR) as (_ & _ & _ & Eo).
  unfold calculate_tier1_metrics in Eo. cbn [T1.operating_margin] in Eo.
  pose proof (rf_gross_margin _ _ _ _ _ _ _ _ _ _ _ _ HR) as Eg.
  pose proof (rf_ebit _ _ _ _ _ _ _ _ _ _ _ _ HR) as Ee.
  rewrite <- Emi in Ee.
  split.
  - intros Hle. apply Qltb_false in Hle. now rewrite Hle in Eo.
  - intros Hpos. apply Qltb_true in Hpos as Hb. rewrite Hb in Eo, Eg.
    split; [exact Eo|].
    exists bo. split; [assumption|].
    set (opex := bo * (1 + get inputs "opex_increase" 0) ^ month r) in *.
    intros H0 H1.
    assert (E : operating_margin r == gross_margin r - opex / revenue r * 100).
    { rewrite Eo, Eg, Ee. field. lra. }
    rewrite E.
    assert (0 <= opex).
    { unfold opex. apply Qmult_le_0_compat; [assumption|].
      now apply Qpower_0_le. }
    assert (0 <= opex / revenue r).
    { apply Qle_shift_div_l; [assumption|]. lra. }
    lra.
Qed.

Lemma row_operating_margin_witness :
  exists r, example_rows !! 1%nat = Some r /\ 0 < revenue r /\
    operating_margin r = ebit r / revenue r * 100.
Proof.
  eexists. split; [reflexivity|]. split; [vm_compute; reflexivity|].
  apply (proj2 (row_operating_margin example_inputs 1%Z None example_rows _
                  example_rows_run
                  (list_elem_of_further _ _ _ (list_elem_of_here _ _)))).
  vm_compute. reflexivity.
Defined.
